(** * The IGraalVM kernel installer ([jupyter/IGraalVM/install.py])

    A shallow embedding of the installer script: the alias tables, the
    [type_assertion] converter, the [EnvVar] argparse action, the argument
    parser as configured by the script, the body of the script as a program
    in a small monad of events and early exits, and the JSON text the script
    writes into the installed [kernel.json].

    Strings are sequences of code points below 256 ([String.string]); paths
    follow the POSIX rules of [os.path.join].  The command line is taken
    after argparse has split it into option occurrences: how a token list is
    cut into occurrences (abbreviations, [--opt=value]) is argparse's
    business, what each occurrence does to the namespace is the script's.
    The options are the six the script adds and the [-h]/[--help] option
    every [ArgumentParser] has. *)

From Stdlib Require Import Strings.String Strings.Ascii Lists.List ZArith Bool Lia.
From Stdlib Require Import Sorting.Sorted Sorting.Permutation.
Import ListNotations.
Local Open Scope string_scope.
Local Open Scope Z_scope.

(* ------------------------------------------------------------------ *)
(** ** Strings *)

Definition chr (n : nat) : string := String (ascii_of_nat n) EmptyString.

Definition dquote : string := chr 34.
Definition backslash : string := chr 92.
Definition newline : string := chr 10.

(** Python truthiness of a [str]. *)
Definition str_truthy (s : string) : bool :=
  match s with EmptyString => false | String _ _ => true end.

(** Python truthiness of a value that is [None] or a [str]. *)
Definition opt_truthy (o : option string) : bool :=
  match o with None => false | Some s => str_truthy s end.

(** [s.lstrip('-')] *)
Fixpoint lstrip_dash (s : string) : string :=
  match s with
  | String c r => if Ascii.eqb c "-"%char then lstrip_dash r else s
  | EmptyString => EmptyString
  end.

(** [s.startswith(p)] *)
Definition startswith (p s : string) : bool := String.prefix p s.

(** [s.endswith(p)] *)
Fixpoint endswith (p s : string) : bool :=
  (String.eqb p s) ||
  match s with
  | String _ r => endswith p r
  | EmptyString => false
  end.

(** [p in s] for strings. *)
Fixpoint contains (p s : string) : bool :=
  String.prefix p s ||
  match s with
  | String _ r => contains p r
  | EmptyString => false
  end.

(** [s.split(",")]: the pieces between commas, at least one piece. *)
Fixpoint split_comma (s : string) : list string :=
  match s with
  | EmptyString => [EmptyString]
  | String c r =>
      if Ascii.eqb c ","%char then EmptyString :: split_comma r
      else match split_comma r with
           | [] => [String c EmptyString]
           | p :: ps => String c p :: ps
           end
  end.

(** [posixpath.join(a, b)] *)
Definition path_join (a b : string) : string :=
  if startswith "/" b then b
  else if negb (str_truthy a) || endswith "/" a then a ++ b
  else a ++ "/" ++ b.

(* ------------------------------------------------------------------ *)
(** ** Python dictionaries

    A [dict] keeps its keys in insertion order; assigning to a key that is
    present replaces the value in place. *)

Definition pydict (V : Type) : Type := list (string * V).

Fixpoint dict_get {V} (k : string) (d : pydict V) : option V :=
  match d with
  | [] => None
  | (k', v) :: r => if String.eqb k k' then Some v else dict_get k r
  end.

Definition dict_mem {V} (k : string) (d : pydict V) : bool :=
  match dict_get k d with Some _ => true | None => false end.

Fixpoint dict_set {V} (k : string) (v : V) (d : pydict V) : pydict V :=
  match d with
  | [] => [(k, v)]
  | (k', v') :: r =>
      if String.eqb k k' then (k, v) :: r else (k', v') :: dict_set k v r
  end.

(** [d.get(k, default)] *)
Definition dict_get_default {V} (k : string) (default : V) (d : pydict V) : V :=
  match dict_get k d with Some v => v | None => default end.

Definition dict_keys {V} (d : pydict V) : list string := map fst d.

(* ------------------------------------------------------------------ *)
(** ** The alias tables and the value converter *)

Definition ALIASES : pydict (pydict string) :=
  [ ("IJAVA_TIMEOUT", [ ("NO_TIMEOUT", "-1") ]) ].

Definition NAME_MAP : pydict string :=
  [ ("timeout", "IJAVA_TIMEOUT") ].

(** A [type_fn] either accepts its argument or raises. *)
Definition type_fn_t : Type := string -> option unit.

(** The builtin [str] used as a type function accepts every string. *)
Definition py_str : type_fn_t := fun _ => Some tt.

(** [type_assertion(name, type_fn)]: [None] is the [KeyError] of
    [NAME_MAP[name]]; the checker returns [None] when [type_fn] raises. *)
Definition type_assertion (name : string) (type_fn : type_fn_t)
  : option (string -> option string) :=
  match dict_get name NAME_MAP with
  | None => None
  | Some env =>
      let aliases := dict_get_default env [] ALIASES in
      Some (fun value =>
              let alias := dict_get_default value value aliases in
              match type_fn alias with
              | Some _ => Some alias
              | None => None
              end)
  end.

(* ------------------------------------------------------------------ *)
(** ** The [EnvVar] action *)

Record EnvVar := mkEnvVar {
  option_strings : list string;
  dest : string;
  aliases : pydict (pydict string);
  name_map : pydict string;
  list_sep : option string
}.

(** [EnvVar.__init__]: every option string must be mapped. *)
Definition EnvVar_init (opts : list string) (d : string)
    (al : pydict (pydict string)) (nm : pydict string) (sep : option string)
  : option EnvVar :=
  if forallb (fun name => dict_mem (lstrip_dash name) nm) opts
  then Some (mkEnvVar opts d al nm sep)
  else None.

(** [EnvVar.__call__] on the dictionary found under [self.dest] ([None]
    when the attribute is missing or unset); the result is the dictionary
    stored back, [None] is the [KeyError] of an unmapped name. *)
Definition EnvVar_call (self : EnvVar) (current : option (pydict string))
    (value : string) (option_string : string) : option (pydict string) :=
  let env := match current with Some e => e | None => [] end in
  let name := lstrip_dash option_string in
  match dict_get name (name_map self) with
  | None => None
  | Some env_var =>
      let value :=
        match list_sep self with
        | Some sep =>
            if str_truthy sep then
              match dict_get env_var env with
              | Some old => old ++ sep ++ value
              | None => value
              end
            else value
        | None => value
        end in
      Some (dict_set env_var value env)
  end.

(* ------------------------------------------------------------------ *)
(** ** The argument parser *)

(** The namespace [parser.parse_args()] returns, with the defaults the
    script configures: [store_true] flags default to [False], [--prefix] to
    the empty string, the others to [None]. *)
Record Namespace := mkNamespace {
  user : bool;
  sys_prefix : bool;
  prefix : string;
  env : option (pydict string);
  graalvm : option string;
  native : option string
}.

Definition default_namespace : Namespace :=
  mkNamespace false false "" None None None.

(** The options of the parser: the six the script adds, and the help
    option [ArgumentParser] adds by itself. *)
Inductive Action : Type :=
| act_user | act_sys_prefix | act_prefix
| act_timeout | act_graalvm | act_native
| act_help.

Definition Action_eqb (a b : Action) : bool :=
  match a, b with
  | act_user, act_user | act_sys_prefix, act_sys_prefix
  | act_prefix, act_prefix | act_timeout, act_timeout
  | act_graalvm, act_graalvm | act_native, act_native
  | act_help, act_help => true
  | _, _ => false
  end.

(** One occurrence of an option on the command line, with its argument. *)
Inductive Occurrence : Type :=
| OptUser
| OptSysPrefix
| OptPrefix (value : string)
| OptTimeout (value : string)
| OptGraalvm (value : string)
| OptNative (value : string)
| OptHelp.

Definition action_of (o : Occurrence) : Action :=
  match o with
  | OptUser => act_user
  | OptSysPrefix => act_sys_prefix
  | OptPrefix _ => act_prefix
  | OptTimeout _ => act_timeout
  | OptGraalvm _ => act_graalvm
  | OptNative _ => act_native
  | OptHelp => act_help
  end.

(** [install_location = parser.add_mutually_exclusive_group()] *)
Definition install_location : list Action :=
  [act_user; act_sys_prefix; act_prefix].

Definition mem_action (a : Action) (l : list Action) : bool :=
  existsb (Action_eqb a) l.

(** The other members of the group of [a]. *)
Definition action_conflicts (a : Action) : list Action :=
  if mem_action a install_location
  then filter (fun b => negb (Action_eqb a b)) install_location
  else [].

(** What the script hands to [add_argument] for [--timeout]. *)
Record Parser := mkParser {
  timeout_type : string -> option string;
  timeout_action : EnvVar
}.

(** Building the parser: [None] when [type_assertion] or
    [EnvVar.__init__] raises. *)
Definition make_parser : option Parser :=
  match type_assertion "timeout" py_str,
        EnvVar_init ["--timeout"] "env" ALIASES NAME_MAP None with
  | Some checker, Some action => Some (mkParser checker action)
  | _, _ => None
  end.

(** The ways [parse_args] does not return. *)
Inductive ParseError : Type :=
| UsageError                    (* [parser.error]: message, exit status 2 *)
| ActionRaised                  (* an exception escaping an action *)
| HelpRequested.                (* the help action: help text, exit status 0 *)

Inductive ParseResult : Type :=
| Parsed (ns : Namespace)
| Failed (e : ParseError).

Section Argparse.

(** argparse counts an occurrence as present when its value is not the
    very object that is the option's default.  Whether the empty string
    given to [--prefix] is that object depends on the interpreter; later
    versions of argparse count every occurrence of an option. *)
Variable empty_prefix_counts : bool.

(** [argument_values is not action.default] *)
Definition is_present (o : Occurrence) : bool :=
  match o with
  | OptPrefix v => str_truthy v || empty_prefix_counts
  | _ => true
  end.

(** [take_action]: the conflict check against the options already seen,
    then the action itself.  The state is the set of seen options and the
    namespace.  The help action prints the help and exits on the spot. *)
Definition take_action (p : Parser) (seen : list Action) (ns : Namespace)
    (o : Occurrence) : (list Action * Namespace) + ParseError :=
  let converted :=
    match o with
    | OptTimeout v => timeout_type p v
    | OptUser | OptSysPrefix | OptHelp => Some ""
    | OptPrefix v | OptGraalvm v | OptNative v => Some v
    end in
  match converted with
  | None => inr UsageError
  | Some value =>
      let a := action_of o in
      let conflict :=
        is_present o &&
        existsb (fun c => mem_action c seen) (action_conflicts a) in
      if conflict then inr UsageError
      else
        let seen' := if is_present o then a :: seen else seen in
        match o with
        | OptUser =>
            inl (seen', mkNamespace true (sys_prefix ns) (prefix ns)
                           (env ns) (graalvm ns) (native ns))
        | OptSysPrefix =>
            inl (seen', mkNamespace (user ns) true (prefix ns)
                           (env ns) (graalvm ns) (native ns))
        | OptPrefix _ =>
            inl (seen', mkNamespace (user ns) (sys_prefix ns) value
                           (env ns) (graalvm ns) (native ns))
        | OptTimeout _ =>
            match EnvVar_call (timeout_action p) (env ns) value "--timeout" with
            | Some e =>
                inl (seen', mkNamespace (user ns) (sys_prefix ns)
                               (prefix ns) (Some e)
                               (graalvm ns) (native ns))
            | None => inr ActionRaised
            end
        | OptGraalvm _ =>
            inl (seen', mkNamespace (user ns) (sys_prefix ns)
                           (prefix ns) (env ns) (Some value) (native ns))
        | OptNative _ =>
            inl (seen', mkNamespace (user ns) (sys_prefix ns)
                           (prefix ns) (env ns) (graalvm ns) (Some value))
        | OptHelp => inr HelpRequested
        end
  end.

Fixpoint parse_loop (p : Parser) (seen : list Action) (ns : Namespace)
    (argv : list Occurrence) : ParseResult :=
  match argv with
  | [] => Parsed ns
  | o :: rest =>
      match take_action p seen ns o with
      | inl (seen', ns') => parse_loop p seen' ns' rest
      | inr e => Failed e
      end
  end.

(** [parser.parse_args()] *)
Definition parse_args (p : Parser) (argv : list Occurrence) : ParseResult :=
  parse_loop p [] default_namespace argv.

End Argparse.

(* ------------------------------------------------------------------ *)
(** ** JSON values and [json.dump(obj, fp, indent=4, sort_keys=True)] *)

#[local] Unset Elimination Schemes.
Inductive json : Type :=
| JStr (s : string)
| JArr (items : list json)
| JObj (items : pydict json).
#[local] Set Elimination Schemes.

Definition hex_digit (n : nat) : string :=
  String.substring n 1 "0123456789abcdef".

(** One character under [ensure_ascii]: the short escapes, the printable
    ASCII range as it is, [\u00xx] for the rest. *)
Definition escape_char (c : ascii) : string :=
  let n := nat_of_ascii c in
  if Nat.eqb n 34 then backslash ++ dquote
  else if Nat.eqb n 92 then backslash ++ backslash
  else if Nat.eqb n 8 then backslash ++ "b"
  else if Nat.eqb n 12 then backslash ++ "f"
  else if Nat.eqb n 10 then backslash ++ "n"
  else if Nat.eqb n 13 then backslash ++ "r"
  else if Nat.eqb n 9 then backslash ++ "t"
  else if Nat.leb 32 n && Nat.leb n 126 then String c EmptyString
  else backslash ++ "u00" ++ hex_digit (Nat.div n 16) ++ hex_digit (Nat.modulo n 16).

Fixpoint escape_string (s : string) : string :=
  match s with
  | EmptyString => EmptyString
  | String c r => escape_char c ++ escape_string r
  end.

(** [encode_basestring_ascii] *)
Definition encode_string (s : string) : string :=
  dquote ++ escape_string s ++ dquote.

Fixpoint spaces (n : nat) : string :=
  match n with
  | O => EmptyString
  | S m => String " "%char (spaces m)
  end.

(** [sep.join(parts)] *)
Definition join (sep : string) (parts : list string) : string :=
  String.concat sep parts.

(** Insertion of an item into a list of items sorted by key. *)
Fixpoint insert_item {V} (x : string * V) (l : list (string * V))
  : list (string * V) :=
  match l with
  | [] => [x]
  | y :: r =>
      if String.leb (fst x) (fst y) then x :: y :: r
      else y :: insert_item x r
  end.

(** [sorted(dct.items())] for a dictionary (its keys are distinct, so the
    order of the pairs is the order of their keys). *)
Definition sort_items {V} (d : pydict V) : list (string * V) :=
  fold_right insert_item [] d.

Definition indent_width : nat := 4.

(** A non-empty container at nesting depth [level]: the opening bracket,
    the members one per line at the next depth and separated by commas, the
    closing bracket on a line of its own at depth [level]. *)
Definition block (level : nat) (opening closing : string) (members : list string)
  : string :=
  let newline_indent := newline ++ spaces (indent_width * S level) in
  let item_separator := "," ++ newline_indent in
  opening ++ newline_indent
          ++ join item_separator members
          ++ (newline ++ spaces (indent_width * level)) ++ closing.

(** A member of an object: the key, the key separator, the value. *)
Definition member (kv : string * string) : string :=
  encode_string (fst kv) ++ ": " ++ snd kv.

(** The text of a value at nesting depth [level].  The members of an
    object are encoded and then put in key order, which gives the same text
    as encoding them in key order (lemma [sort_items_map]). *)
Fixpoint iterencode (level : nat) (j : json) : string :=
  match j with
  | JStr s => encode_string s
  | JArr [] => "[]"
  | JArr items => block level "[" "]" (map (iterencode (S level)) items)
  | JObj [] => "{}"
  | JObj items =>
      block level "{" "}"
        (map member
           (sort_items
              (map (fun kv => (fst kv, iterencode (S level) (snd kv))) items)))
  end.

Definition json_dump (obj : json) : string := iterencode 0 obj.

(** [obj[field][k] = v] for an object [obj] whose [field] is an object:
    the inner dictionary is updated in place. *)
Definition setitem_in (field k : string) (v : json) (obj : json) : json :=
  match obj with
  | JObj items =>
      match dict_get field items with
      | Some (JObj inner) => JObj (dict_set field (JObj (dict_set k v inner)) items)
      | _ => obj
      end
  | _ => obj
  end.

(** [obj[field]] *)
Definition getitem (field : string) (obj : json) : option json :=
  match obj with
  | JObj items => dict_get field items
  | _ => None
  end.

(* ------------------------------------------------------------------ *)
(** ** The script as a program

    What the script does to the outside is recorded as a trace of events;
    what the outside answers is read from a [Host]. *)

Inductive Event : Type :=
| Print (text : string)
| PrintHelp                                  (* [parser.print_help()] *)
| Setenv (key value : string)                (* [os.environ[key] = value] *)
| Run (args : list string) (environ : pydict string)   (* [subprocess.run] *)
| Mkdir (path : string)
| Move (src dst : string)
| Chdir (path : string)
| Remove (path : string)
| InstallKernelSpec (source_dir kernel_name : string) (user : bool) (prefix : string)
| JsonDump (path : string) (obj : json).
    (* [json.dump(obj, fp, indent=4, sort_keys=True)] into the file [path] *)

Record Host := mkHost {
  os_environ : pydict string;          (* [os.environ] when the script starts *)
  module_dir : string;                 (* [os.path.dirname(os.path.abspath(__file__))] *)
  sys_dot_prefix : string;             (* [sys.prefix] *)
  path_exists : string -> bool;        (* [os.path.exists] *)
  mkdir_ok : string -> bool;           (* [false]: [os.mkdir] raises *)
  move_ok : string -> string -> bool;  (* [false]: [shutil.move] raises *)
  chdir_ok : string -> bool;           (* [false]: [os.chdir] raises *)
  remove_ok : string -> bool;          (* [false]: [os.remove] raises *)
  returncode : list string -> pydict string -> option Z;
                                       (* of [subprocess.run]; [None]: it raises *)
  install_kernel_spec : string -> string -> bool -> string -> option string;
                                       (* the destination; [None]: it raises *)
  open_ok : string -> bool;            (* [false]: [open(path, 'w')] raises *)
  repr_list : list string -> string;   (* [str] of a list of strings *)
  argparse_counts_default : bool       (* see [is_present] *)
}.

(** How a computation ends: with a value, by [exit(code)], or by an
    exception nobody catches. *)
Inductive Outcome (A : Type) : Type :=
| Returned (a : A)
| Exited (code : Z)
| Raised (what : string).
Arguments Returned {A} a.
Arguments Exited {A} code.
Arguments Raised {A} what.

Record Proc := mkProc {
  environ : pydict string;     (* the process environment *)
  trace : list Event           (* the events so far, oldest first *)
}.

Definition Script (A : Type) : Type := Proc -> Outcome A * Proc.

Definition ret {A} (a : A) : Script A := fun st => (Returned a, st).

Definition bind {A B} (c : Script A) (k : A -> Script B) : Script B :=
  fun st =>
    match c st with
    | (Returned a, st') => k a st'
    | (Exited code, st') => (Exited code, st')
    | (Raised what, st') => (Raised what, st')
    end.

Notation "x <- c ;; k" := (bind c (fun x => k))
  (at level 61, c at next level, right associativity).
Notation "c ;; k" := (bind c (fun _ => k))
  (at level 61, right associativity).

Definition exit {A} (code : Z) : Script A := fun st => (Exited code, st).
Definition raise {A} (what : string) : Script A := fun st => (Raised what, st).

Definition emit (e : Event) : Script unit :=
  fun st => (Returned tt, mkProc (environ st) (trace st ++ [e])).

Definition get_environ : Script (pydict string) :=
  fun st => (Returned (environ st), st).

(** [os.environ[key] = value] *)
Definition setenv (key value : string) : Script unit :=
  fun st => (Returned tt,
             mkProc (dict_set key value (environ st))
                    (trace st ++ [Setenv key value])).

(** An operation that either succeeds or raises. *)
Definition attempt (ok : bool) (e : Event) (what : string) : Script unit :=
  emit e ;; if ok then ret tt else raise what.

(** [subprocess.run(args)] in the current environment; the result is the
    return code. *)
Definition subprocess_run (h : Host) (args : list string) : Script Z :=
  environ <- get_environ ;;
  emit (Run args environ) ;;
  match returncode h args environ with
  | Some rc => ret rc
  | None => raise "subprocess.run"
  end.

(* ------------------------------------------------------------------ *)
(** ** The body of the script *)

(** The fix-ups after [parse_args]: an unset [env] becomes the empty
    dictionary; without [--sys-prefix] and without a non-empty [--prefix]
    the installation is a user installation. *)
Definition with_env_default (args : Namespace) : Namespace :=
  match env args with
  | None => mkNamespace (user args) (sys_prefix args) (prefix args)
                        (Some []) (graalvm args) (native args)
  | Some _ => args
  end.

Definition with_user_default (args : Namespace) : Namespace :=
  if negb (sys_prefix args) && negb (str_truthy (prefix args))
  then mkNamespace true (sys_prefix args) (prefix args)
                   (env args) (graalvm args) (native args)
  else args.

(** [graalvm_home] after lines 123-125: the flag, else the environment
    variable. *)
Definition resolve_graalvm_home (args : Namespace) (environ : pydict string)
  : option string :=
  if negb (opt_truthy (graalvm args)) && dict_mem "GRAALVM_HOME" environ
  then dict_get "GRAALVM_HOME" environ
  else graalvm args.

Definition guidance : string :=
  "Set GraalVM installation location via --graalvm option, or set GRAALVM_HOME environment variable".

Definition native_run_args (graalvm_home : string) (languages : list string)
  : list string :=
  [ path_join graalvm_home "bin/native-image";
    "-H:+ReportExceptionStackTraces";
    "--no-fallback";
    "--report-unsupported-elements-at-runtime" ]
  ++ map (fun language => "--language:" ++ language) languages
  ++ [ "-jar"; "IGraalVM.jar" ].

Definition kernel_args (args : Namespace) (graalvm_home install_dest : string)
  : list string :=
  if opt_truthy (native args)
  then [ install_dest ++ "/IGraalVM"; "{connection_file}" ]
  else [ graalvm_home ++ "/bin/java"; "-jar";
         install_dest ++ "/IGraalVM.jar"; "{connection_file}" ].

(** The dictionary literal of lines 192-200. *)
Definition kernel_json_literal (args : Namespace)
    (graalvm_home install_dest : string) : json :=
  JObj [ ("argv", JArr (map JStr (kernel_args args graalvm_home install_dest)));
         ("display_name",
            JStr (if opt_truthy (native args) then "GraalVM Native" else "GraalVM"));
         ("language", JStr "GraalVM");
         ("interrupt_mode", JStr "message");
         ("env", JObj [ ("GRAALVM_HOME", JStr graalvm_home) ]) ].

(** The loop of lines 202-204: [kernel_env] is the dictionary inside
    [kernel_json], so every assignment lands in [kernel_json["env"]]. *)
Definition kernel_json (args : Namespace) (overrides : pydict string)
    (graalvm_home install_dest : string) : json :=
  fold_left (fun kj kv => setitem_in "env" (fst kv) (JStr (snd kv)) kj)
            overrides
            (kernel_json_literal args graalvm_home install_dest).

(** Lines 144-159: the native image, and the kernel name that results. *)
Definition native_image (h : Host) (args : Namespace) (graalvm_home : string)
  : Script string :=
  match native args with
  | Some langs =>
      if str_truthy langs then
        let languages := split_comma langs in
        emit (Print ("Generating native image with following languages: "
                       ++ repr_list h languages)) ;;
        attempt (chdir_ok h "graalvm") (Chdir "graalvm") "os.chdir" ;;
        rc <- subprocess_run h (native_run_args graalvm_home languages) ;;
        if negb (rc =? 0) then exit rc
        else
          attempt (remove_ok h "IGraalVM.jar") (Remove "IGraalVM.jar") "os.remove" ;;
          attempt (chdir_ok h "..") (Chdir "..") "os.chdir" ;;
          ret "GraalVMNative"
      else ret "GraalVM"
  | None => ret "GraalVM"
  end.

(** Lines 173-206: the descriptor written into the installed directory.
    ([install_dest_json_fragment] and [local_kernel_json_path] are computed
    there and never used.) *)
Definition write_kernel_json (h : Host) (args : Namespace)
    (graalvm_home install_dest : string) : Script unit :=
  let installed_kernel_json_path := path_join install_dest "kernel.json" in
  match env args with
  | None => raise "AttributeError"
  | Some overrides =>
      if open_ok h installed_kernel_json_path
      then emit (JsonDump installed_kernel_json_path
                   (kernel_json args overrides graalvm_home install_dest))
      else raise "open"
  end.

(** Lines 130-208, once [graalvm_home] is known. *)
Definition build_and_install (h : Host) (args : Namespace) (graalvm_home : string)
  : Script unit :=
  setenv "JAVA_HOME" graalvm_home ;;
  rc <- subprocess_run h ["mvn"; "package"] ;;
  if negb (rc =? 0) then exit rc
  else
    let current_dir := module_dir h in
    let kernel_dir := path_join current_dir "graalvm" in
    (if negb (path_exists h kernel_dir)
     then attempt (mkdir_ok h kernel_dir) (Mkdir kernel_dir) "os.mkdir"
     else ret tt) ;;
    let jar := path_join current_dir "target/IGraalVM-1.0-SNAPSHOT.jar" in
    let target := path_join kernel_dir "IGraalVM.jar" in
    attempt (move_ok h jar target) (Move jar target) "shutil.move" ;;
    kernel_name <- native_image h args graalvm_home ;;
    let prefix_arg := if sys_prefix args then sys_dot_prefix h else prefix args in
    emit (InstallKernelSpec kernel_dir kernel_name (user args) prefix_arg) ;;
    match install_kernel_spec h kernel_dir kernel_name (user args) prefix_arg with
    | None => raise "install_kernel_spec"
    | Some install_dest =>
        write_kernel_json h args graalvm_home install_dest ;;
        emit (Print ("Installed GraalVM kernel into " ++ dquote ++ install_dest ++ dquote))
    end.

(** The [__main__] block. *)
Definition main (h : Host) (argv : list Occurrence) : Script unit :=
  match make_parser with
  | None => raise "parser"
  | Some parser =>
      match parse_args (argparse_counts_default h) parser argv with
      | Failed UsageError => exit 2
      | Failed ActionRaised => raise "action"
      | Failed HelpRequested => emit PrintHelp ;; exit 0
      | Parsed ns =>
          let args := with_user_default (with_env_default ns) in
          environ <- get_environ ;;
          let graalvm_home := resolve_graalvm_home args environ in
          if negb (opt_truthy graalvm_home)
          then emit (Print guidance) ;; exit 0
          else
            build_and_install h args
              (match graalvm_home with Some s => s | None => "" end)
      end
  end.

(** A run of the script on a host: how it ends and what it did. *)
Definition run (h : Host) (argv : list Occurrence) : Outcome unit * list Event :=
  let (outcome, st) := main h argv (mkProc (os_environ h) []) in
  (outcome, trace st).

(** The exit status the operating system sees: the low eight bits of the
    code given to [exit], 1 after an uncaught exception. *)
Definition exit_status {A} (o : Outcome A) : Z :=
  match o with
  | Returned _ => 0
  | Exited code => code mod 256
  | Raised _ => 1
  end.

(** The descriptors a trace wrote: the path and the object dumped. *)
Definition written (t : list Event) : list (string * json) :=
  flat_map (fun e => match e with
                     | JsonDump path obj => [(path, obj)]
                     | _ => []
                     end) t.

(** The text [json.dump] leaves in the file. *)
Definition file_text (obj : json) : string := json_dump obj.

(** The value of the last occurrence of an option, as argparse's [store]
    keeps it. *)
Fixpoint last_value (sel : Occurrence -> option string) (argv : list Occurrence)
  : option string :=
  match argv with
  | [] => None
  | o :: rest =>
      match last_value sel rest with
      | Some v => Some v
      | None => sel o
      end
  end.

Definition timeout_value (o : Occurrence) : option string :=
  match o with OptTimeout v => Some v | _ => None end.
Definition graalvm_value (o : Occurrence) : option string :=
  match o with OptGraalvm v => Some v | _ => None end.
Definition native_value (o : Occurrence) : option string :=
  match o with OptNative v => Some v | _ => None end.

(** An occurrence of one of the install-location options. *)
Definition is_location (o : Occurrence) : bool :=
  mem_action (action_of o) install_location.

(** The install-location modes. *)
Inductive Mode : Type := UserMode | SysPrefixMode | PrefixMode.

(** The modes that are on in a namespace: [args.user], [args.sys_prefix],
    a non-empty [args.prefix]. *)
Definition active_modes (args : Namespace) : list Mode :=
  (if user args then [UserMode] else [])
  ++ (if sys_prefix args then [SysPrefixMode] else [])
  ++ (if str_truthy (prefix args) then [PrefixMode] else []).

(* ------------------------------------------------------------------ *)
(** ** Vocabulary of the properties and example hosts *)

(** What the converter of [--timeout] returns. *)
Definition resolve_alias (value : string) : string :=
  if String.eqb value "NO_TIMEOUT" then "-1" else value.

(** The install-location options seen so far: at most one of them, and
    every mode that is on in the namespace has been seen. *)
Definition location_inv (seen : list Action) (ns : Namespace) : Prop :=
  (user ns = true -> mem_action act_user seen = true)
  /\ (sys_prefix ns = true -> mem_action act_sys_prefix seen = true)
  /\ (str_truthy (prefix ns) = true -> mem_action act_prefix seen = true)
  /\ (mem_action act_user seen && mem_action act_sys_prefix seen = false)
  /\ (mem_action act_user seen && mem_action act_prefix seen = false)
  /\ (mem_action act_sys_prefix seen && mem_action act_prefix seen = false).

Definition or_else (o d : option string) : option string :=
  match o with Some v => Some v | None => d end.

(** The dictionary [--timeout] leaves in [env]: the last occurrence
    decides. *)
Definition env_after (argv : list Occurrence) (e : option (pydict string))
  : option (pydict string) :=
  match last_value timeout_value argv with
  | Some v => Some (dict_set "IJAVA_TIMEOUT" (resolve_alias v)
                      (match e with Some d => d | None => [] end))
  | None => e
  end.

(** The kernel name the script registers. *)
Definition kernel_name_of (args : Namespace) : string :=
  if opt_truthy (native args) then "GraalVMNative" else "GraalVM".

(** The namespace the script works with after its two fix-ups. *)
Definition fixed_up (ns : Namespace) : Namespace :=
  with_user_default (with_env_default ns).

(** The environment block: the overrides assigned one after the other on
    top of the base dictionary. *)
Definition merge_env (overrides : pydict string) (base : pydict json)
  : pydict json :=
  fold_left (fun e kv => dict_set (fst kv) (JStr (snd kv)) e) overrides base.

(** The parser the script builds (building it does not fail). *)
Definition script_parser : Parser :=
  match make_parser with
  | Some p => p
  | None => mkParser (fun _ => None) (mkEnvVar [] "env" [] [] None)
  end.

(** A host on which everything succeeds, used to run the script on
    concrete command lines. *)
Definition example_host : Host :=
  mkHost [ ("HOME", "/home/ada") ]
         "/work/IGraalVM"
         "/usr"
         (fun _ => false)
         (fun _ => true)
         (fun _ _ => true)
         (fun _ => true)
         (fun _ => true)
         (fun _ _ => Some 0)
         (fun _ name _ _ => Some ("/home/ada/.local/share/jupyter/kernels/" ++ name))
         (fun _ => true)
         (fun l => "[" ++ join ", " (map (fun s => "'" ++ s ++ "'") l) ++ "]")
         false.

(** The command line [--timeout NO_TIMEOUT --graalvm /opt/gvm]. *)
Definition timeout_example : list Occurrence :=
  [ OptTimeout "NO_TIMEOUT"; OptGraalvm "/opt/gvm" ].

(** The descriptor [example_host] gets for [timeout_example]. *)
Definition example_descriptor : json :=
  kernel_json
    (mkNamespace true false "" (Some [("IJAVA_TIMEOUT", "-1")]) (Some "/opt/gvm") None)
    [("IJAVA_TIMEOUT", "-1")]
    "/opt/gvm"
    "/home/ada/.local/share/jupyter/kernels/GraalVM".

Definition example_descriptor_path : string :=
  "/home/ada/.local/share/jupyter/kernels/GraalVM/kernel.json".

Definition native_example : list Occurrence :=
  [ OptGraalvm "/opt/gvm"; OptNative "js,python" ].

Definition native_example_descriptor : json :=
  kernel_json
    (mkNamespace true false "" (Some []) (Some "/opt/gvm") (Some "js,python"))
    []
    "/opt/gvm"
    "/home/ada/.local/share/jupyter/kernels/GraalVMNative".

Definition native_example_path : string :=
  "/home/ada/.local/share/jupyter/kernels/GraalVMNative/kernel.json".

Definition failing_build_host : Host :=
  mkHost (os_environ example_host) (module_dir example_host)
         (sys_dot_prefix example_host) (path_exists example_host)
         (mkdir_ok example_host) (move_ok example_host)
         (chdir_ok example_host) (remove_ok example_host)
         (fun _ _ => Some 3)
         (install_kernel_spec example_host) (open_ok example_host)
         (repr_list example_host) false.

Definition failing_native_host : Host :=
  mkHost (os_environ example_host) (module_dir example_host)
         (sys_dot_prefix example_host) (path_exists example_host)
         (mkdir_ok example_host) (move_ok example_host)
         (chdir_ok example_host) (remove_ok example_host)
         (fun args _ => if Nat.eqb (List.length args) 2 then Some 0 else Some 7)
         (install_kernel_spec example_host) (open_ok example_host)
         (repr_list example_host) false.

(** The runtime home the script settles on, from the command line and the
    environment of the host. *)
Definition runtime_home (h : Host) (argv : list Occurrence) : option string :=
  resolve_graalvm_home
    (mkNamespace false false "" None (last_value graalvm_value argv) None)
    (os_environ h).

(** Order of two items by their keys. *)
Definition key_le {V} (a b : string * V) : Prop :=
  String.leb (fst a) (fst b) = true.

(** A string between two double quotes. *)
Definition quoted (s : string) : string := dquote ++ s ++ dquote.

(** One item per line behind [indent], a comma after every item but the
    last. *)
Fixpoint comma_lines (indent : string) (items : list string) : string :=
  match items with
  | [] => ""
  | x :: r =>
      match r with
      | [] => indent ++ x ++ newline
      | _ :: _ => indent ++ x ++ "," ++ newline ++ comma_lines indent r
      end
  end.

(** The text of a descriptor, character for character: the launch
    command [words], the display name, the runtime home and the timeout
    value if there is one.  The variable strings appear escaped, between
    double quotes. *)
Definition expected_descriptor_text (words : list string)
    (display_name home : string) (timeout : option string) : string :=
  "{" ++ newline
  ++ "    " ++ quoted "argv" ++ ": [" ++ newline
  ++ comma_lines "        " (map (fun w => quoted (escape_string w)) words)
  ++ "    ]," ++ newline
  ++ "    " ++ quoted "display_name" ++ ": " ++ quoted display_name ++ "," ++ newline
  ++ "    " ++ quoted "env" ++ ": {" ++ newline
  ++ "        " ++ quoted "GRAALVM_HOME" ++ ": " ++ quoted (escape_string home)
  ++ match timeout with
     | Some v =>
         "," ++ newline
         ++ "        " ++ quoted "IJAVA_TIMEOUT" ++ ": " ++ quoted (escape_string v)
     | None => ""
     end
  ++ newline
  ++ "    }," ++ newline
  ++ "    " ++ quoted "interrupt_mode" ++ ": " ++ quoted "message" ++ "," ++ newline
  ++ "    " ++ quoted "language" ++ ": " ++ quoted "GraalVM" ++ newline
  ++ "}".

(** The destination the registrar reports for a namespace. *)
Definition registered_dest (h : Host) (args : Namespace) : option string :=
  install_kernel_spec h (path_join (module_dir h) "graalvm")
    (kernel_name_of args) (user args)
    (if sys_prefix args then sys_dot_prefix h else prefix args).

(** A second host: another checkout, another environment, a kernel
    directory that exists already, the other argparse behaviour; the
    registrar answers as on [example_host]. *)
Definition second_host : Host :=
  mkHost [ ("LANG", "C"); ("GRAALVM_HOME", "/usr/lib/graalvm") ]
         "/tmp/checkout/jupyter/IGraalVM"
         "/opt/conda"
         (fun _ => true)
         (fun _ => false)
         (fun _ _ => true)
         (fun _ => true)
         (fun _ => true)
         (fun _ _ => Some 0)
         (install_kernel_spec example_host)
         (fun _ => true)
         (repr_list example_host)
         true.

(* ------------------------------------------------------------------ *)
(** ** Further vocabulary *)

(** The dictionary an action finds under its destination. *)
Definition current_env (e : option (pydict string)) : pydict string :=
  match e with Some d => d | None => [] end.

(** An action like the script's, with a list separator. *)
Definition path_action : EnvVar :=
  mkEnvVar ["--classpath"] "env" [] [("classpath", "IJAVA_CLASSPATH")] (Some ":").

(** An occurrence of an install-location option that argparse counts. *)
Definition present_location (counts : bool) (o : Occurrence) : bool :=
  is_location o && is_present counts o.

(** A command line on which the counted install-location occurrences all
    name the same option. *)
Definition compatible (counts : bool) (argv : list Occurrence) : Prop :=
  forall o o', In o argv -> In o' argv ->
    present_location counts o = true -> present_location counts o' = true ->
    action_of o = action_of o'.

Definition prefix_value (o : Occurrence) : option string :=
  match o with OptPrefix v => Some v | _ => None end.

(** The namespace of an accepted command line, read off the command line:
    a flag is on when it occurs, a valued option has its last value. *)
Definition parsed_namespace (argv : list Occurrence) : Namespace :=
  mkNamespace
    (existsb (fun o => Action_eqb (action_of o) act_user) argv)
    (existsb (fun o => Action_eqb (action_of o) act_sys_prefix) argv)
    (match last_value prefix_value argv with Some v => v | None => "" end)
    (env_after argv None)
    (last_value graalvm_value argv)
    (last_value native_value argv).

(** The environment the script gives its subprocesses. *)
Definition build_environ (h : Host) (home : string) : pydict string :=
  dict_set "JAVA_HOME" home (os_environ h).

(** The steps of a native build, in order. *)
Definition native_steps (h : Host) (home langs : string) : list Event :=
  [ Print ("Generating native image with following languages: "
             ++ repr_list h (split_comma langs));
    Chdir "graalvm";
    Run (native_run_args home (split_comma langs)) (build_environ h home);
    Remove "IGraalVM.jar";
    Chdir ".." ].

(** Everything a run that ends normally has done, in order. *)
Definition successful_trace (h : Host) (args : Namespace) (overrides : pydict string)
    (home dest : string) : list Event :=
  let kernel_dir := path_join (module_dir h) "graalvm" in
  ([ Setenv "JAVA_HOME" home;
     Run ["mvn"; "package"] (build_environ h home) ]
   ++ (if path_exists h kernel_dir then [] else [Mkdir kernel_dir])
   ++ [ Move (path_join (module_dir h) "target/IGraalVM-1.0-SNAPSHOT.jar")
             (path_join kernel_dir "IGraalVM.jar") ]
   ++ (match native args with
       | Some langs => if str_truthy langs then native_steps h home langs else []
       | None => []
       end)
   ++ [ InstallKernelSpec kernel_dir (kernel_name_of args) (user args)
          (if sys_prefix args then sys_dot_prefix h else prefix args);
        JsonDump (path_join dest "kernel.json")
                 (kernel_json args overrides home dest);
        Print ("Installed GraalVM kernel into " ++ dquote ++ dest ++ dquote) ])%list.

(** Every character of a string passes a test. *)
Fixpoint all_chars (f : ascii -> bool) (s : string) : bool :=
  match s with
  | EmptyString => true
  | String c r => f c && all_chars f r
  end.

(** The printable ASCII characters, space to tilde. *)
Definition printable (c : ascii) : bool :=
  Nat.leb 32 (nat_of_ascii c) && Nat.leb (nat_of_ascii c) 126.

(** Printable, and neither the double quote nor the backslash. *)
Definition plain (c : ascii) : bool :=
  printable c && negb (Nat.eqb (nat_of_ascii c) 34)
              && negb (Nat.eqb (nat_of_ascii c) 92).

(** Printable or a line feed: what a text file of [json.dump] holds. *)
Definition text_char (c : ascii) : bool :=
  printable c || Nat.eqb (nat_of_ascii c) 10.

(** The number of commas of a string. *)
Fixpoint count_commas (s : string) : nat :=
  match s with
  | EmptyString => O
  | String c r => (if Ascii.eqb c ","%char then 1 else 0) + count_commas r
  end.

(** An occurrence of the help option. *)
Definition is_help (o : Occurrence) : bool :=
  Action_eqb (action_of o) act_help.

(** The value of a hexadecimal digit. *)
Definition hex_value (c : ascii) : option nat :=
  let n := nat_of_ascii c in
  if Nat.leb 48 n && Nat.leb n 57 then Some (n - 48)%nat
  else if Nat.leb 97 n && Nat.leb n 102 then Some (n - 87)%nat
  else if Nat.leb 65 n && Nat.leb n 70 then Some (n - 55)%nat
  else None.

(** The character a two-character escape of the JSON grammar stands for. *)
Definition short_escape (c : ascii) : option ascii :=
  let n := nat_of_ascii c in
  if Nat.eqb n 34 then Some (ascii_of_nat 34)
  else if Nat.eqb n 92 then Some (ascii_of_nat 92)
  else if Nat.eqb n 47 then Some (ascii_of_nat 47)
  else if Nat.eqb n 98 then Some (ascii_of_nat 8)
  else if Nat.eqb n 102 then Some (ascii_of_nat 12)
  else if Nat.eqb n 110 then Some (ascii_of_nat 10)
  else if Nat.eqb n 114 then Some (ascii_of_nat 13)
  else if Nat.eqb n 116 then Some (ascii_of_nat 9)
  else None.

(** The character of a [\uXXXX] escape, for the code points below 256. *)
Definition unicode_escape (a b c d : ascii) : option ascii :=
  match hex_value a, hex_value b, hex_value c, hex_value d with
  | Some x, Some y, Some z, Some w =>
      let n := (((x * 16 + y) * 16 + z) * 16 + w)%nat in
      if Nat.ltb n 256 then Some (ascii_of_nat n) else None
  | _, _, _, _ => None
  end.

(** A character the JSON grammar allows unescaped inside a string: not a
    control character, not the double quote, not the backslash. *)
Definition unescaped (c : ascii) : bool :=
  Nat.leb 32 (nat_of_ascii c)
  && negb (Nat.eqb (nat_of_ascii c) 34)
  && negb (Nat.eqb (nat_of_ascii c) 92).

(** What a reader of JSON makes of the inside of a string: unescaped
    characters stand for themselves, a backslash starts a two-character
    escape or [\uXXXX]; a raw double quote, a raw control character or a
    broken escape is refused. *)
Fixpoint json_string_decode (s : string) : option string :=
  match s with
  | EmptyString => Some EmptyString
  | String c r =>
      if unescaped c then option_map (String c) (json_string_decode r)
      else if Nat.eqb (nat_of_ascii c) 92 then
        match r with
        | EmptyString => None
        | String e r1 =>
            match short_escape e with
            | Some d => option_map (String d) (json_string_decode r1)
            | None =>
                if Nat.eqb (nat_of_ascii e) 117 then
                  match r1 with
                  | String a (String b (String x (String y r2))) =>
                      match unicode_escape a b x y with
                      | Some d => option_map (String d) (json_string_decode r2)
                      | None => None
                      end
                  | _ => None
                  end
                else None
            end
        end
      else None
  end.

(* ================================================================== *)
(** * Properties *)

(* ------------------------------------------------------------------ *)
(** ** Strings and dictionaries *)

Lemma endswith_refl (p : string) : endswith p p = true.
Proof.
  destruct p; simpl; [reflexivity|].
  now rewrite Ascii.eqb_refl, String.eqb_refl.
Qed.

Lemma endswith_app (a p : string) : endswith p (a ++ p) = true.
Proof.
  induction a as [|c a IH]; simpl.
  - apply endswith_refl.
  - rewrite IH. apply orb_true_r.
Qed.

Lemma endswith_app_r (a p s : string) :
  endswith p s = true -> endswith p (a ++ s) = true.
Proof.
  intros H. induction a as [|c a IH]; simpl.
  - exact H.
  - rewrite IH. apply orb_true_r.
Qed.

Lemma dict_get_set_same {V} (k : string) (v : V) (d : pydict V) :
  dict_get k (dict_set k v d) = Some v.
Proof.
  induction d as [|[k' v'] d IH]; simpl.
  - now rewrite String.eqb_refl.
  - destruct (String.eqb k k') eqn:E; simpl.
    + now rewrite String.eqb_refl.
    + now rewrite E.
Qed.

Lemma dict_get_set_other {V} (k k' : string) (v : V) (d : pydict V) :
  k' <> k -> dict_get k' (dict_set k v d) = dict_get k' d.
Proof.
  intros Hne. induction d as [|[k0 v0] d IH]; simpl.
  - destruct (String.eqb_spec k' k); [contradiction|reflexivity].
  - destruct (String.eqb_spec k k0) as [->|Hk]; simpl.
    + destruct (String.eqb_spec k' k0); [contradiction|reflexivity].
    + destruct (String.eqb_spec k' k0); [reflexivity|exact IH].
Qed.

Lemma dict_set_set {V} (k : string) (v v' : V) (d : pydict V) :
  dict_set k v (dict_set k v' d) = dict_set k v d.
Proof.
  induction d as [|[k0 v0] d IH]; simpl.
  - now rewrite String.eqb_refl.
  - destruct (String.eqb k k0) eqn:E; simpl.
    + now rewrite String.eqb_refl.
    + now rewrite E, IH.
Qed.

(* ------------------------------------------------------------------ *)
(** ** The parser the script builds *)

Lemma make_parser_spec :
  exists p, make_parser = Some p
    /\ (forall v, timeout_type p v = Some (resolve_alias v))
    /\ (forall e v, EnvVar_call (timeout_action p) e v "--timeout"
                    = Some (dict_set "IJAVA_TIMEOUT" v
                              (match e with Some d => d | None => [] end))).
Proof.
  eexists. split; [reflexivity|]. split.
  - intros v. unfold resolve_alias. cbn.
    unfold dict_get_default. cbn.
    destruct (String.eqb v "NO_TIMEOUT"); reflexivity.
  - intros e v. reflexivity.
Qed.

Section ParserFacts.

Variable counts : bool.
Variable p : Parser.
Hypothesis Hp : make_parser = Some p.

Lemma timeout_type_spec v : timeout_type p v = Some (resolve_alias v).
Proof.
  destruct make_parser_spec as (q & Hq & Hty & _).
  rewrite Hq in Hp. injection Hp as <-. apply Hty.
Qed.

Lemma timeout_action_spec e v :
  EnvVar_call (timeout_action p) e v "--timeout"
  = Some (dict_set "IJAVA_TIMEOUT" v (match e with Some d => d | None => [] end)).
Proof.
  destruct make_parser_spec as (q & Hq & _ & Hact).
  rewrite Hq in Hp. injection Hp as <-. apply Hact.
Qed.

Lemma mem_action_cons a b l :
  mem_action a (b :: l) = Action_eqb a b || mem_action a l.
Proof. reflexivity. Qed.

Ltac fold_seen :=
  rewrite ?mem_action_cons;
  cbn [Action_eqb orb andb user sys_prefix prefix env graalvm native].

Lemma take_action_location_inv seen ns o seen' ns' :
  location_inv seen ns ->
  take_action counts p seen ns o = inl (seen', ns') ->
  location_inv seen' ns'.
Proof.
  unfold location_inv, take_action.
  intros (Hu & Hs & Hx & H1 & H2 & H3) H.
  destruct o; cbn in H;
    rewrite ?timeout_type_spec, ?timeout_action_spec in H; cbn in H.
  - (* --user *)
    destruct (mem_action act_sys_prefix seen) eqn:Es; [discriminate|].
    destruct (mem_action act_prefix seen) eqn:Ex; [discriminate|].
    injection H as <- <-. fold_seen. rewrite ?Es, ?Ex.
    repeat split; auto; try (intros; discriminate).
  - (* --sys-prefix *)
    destruct (mem_action act_user seen) eqn:Eu; [discriminate|].
    destruct (mem_action act_prefix seen) eqn:Ex; [discriminate|].
    injection H as <- <-. fold_seen. rewrite ?Eu, ?Ex.
    repeat split; auto; try (intros; discriminate).
  - (* --prefix *)
    destruct (str_truthy value || counts) eqn:Ep; cbn in H.
    + destruct (mem_action act_user seen) eqn:Eu; [discriminate|].
      destruct (mem_action act_sys_prefix seen) eqn:Es; [discriminate|].
      injection H as <- <-. fold_seen. rewrite ?Eu, ?Es.
      repeat split; auto; try (intros; discriminate).
    + apply orb_false_iff in Ep as [Ev _].
      injection H as <- <-. fold_seen. rewrite Ev.
      repeat split; auto; intros; discriminate.
  - injection H as <- <-. fold_seen. repeat split; auto.
  - injection H as <- <-. fold_seen. repeat split; auto.
  - injection H as <- <-. fold_seen. repeat split; auto.
  - discriminate H.
Qed.

Lemma parse_loop_location_inv argv : forall seen ns ns',
  location_inv seen ns ->
  parse_loop counts p seen ns argv = Parsed ns' ->
  exists seen', location_inv seen' ns'.
Proof.
  induction argv as [|o rest IH]; intros seen ns ns' Hinv H; simpl in H.
  - injection H as <-. now exists seen.
  - destruct (take_action counts p seen ns o) as [[seen1 ns1]|r] eqn:E.
    + eapply IH; [|exact H].
      eapply take_action_location_inv; eauto.
    + discriminate.
Qed.

Lemma parse_loop_fields argv : forall seen ns ns',
  parse_loop counts p seen ns argv = Parsed ns' ->
  graalvm ns' = or_else (last_value graalvm_value argv) (graalvm ns)
  /\ native ns' = or_else (last_value native_value argv) (native ns)
  /\ env ns' = env_after argv (env ns).
Proof.
  unfold env_after.
  induction argv as [|o rest IH]; intros seen ns ns' H; simpl in H.
  - injection H as <-. now cbn.
  - destruct (take_action counts p seen ns o) as [[seen1 ns1]|r] eqn:E;
      [|discriminate].
    destruct (IH _ _ _ H) as (Hg & Hn & He).
    rewrite Hg, Hn, He. clear IH H Hg Hn He.
    unfold take_action in E.
    destruct o; cbn in E;
      rewrite ?timeout_type_spec, ?timeout_action_spec in E; cbn in E;
      try discriminate E;
      try match type of E with
          | (if ?c then _ else _) = _ => destruct c; [discriminate|]
          end;
      injection E as <- <-; cbn;
      destruct (last_value graalvm_value rest);
      destruct (last_value native_value rest);
      destruct (last_value timeout_value rest); cbn;
      rewrite ?dict_set_set; auto.
Qed.

(** Options outside the install-location group leave the three location
    attributes alone. *)
Lemma parse_loop_no_location argv :
  forallb (fun o => negb (is_location o)) argv = true ->
  forall seen ns ns',
    parse_loop counts p seen ns argv = Parsed ns' ->
    user ns' = user ns /\ sys_prefix ns' = sys_prefix ns
    /\ prefix ns' = prefix ns.
Proof.
  induction argv as [|o rest IH]; intros Hno seen ns ns' H; simpl in H.
  - injection H as <-. auto.
  - simpl in Hno. apply andb_true_iff in Hno as [Ho Hrest].
    unfold take_action in H.
    destruct o; try discriminate Ho; cbn in H;
      rewrite ?timeout_type_spec, ?timeout_action_spec in H; cbn in H;
      try discriminate H;
      destruct (IH Hrest _ _ _ H) as (Hu & Hs & Hx); auto.
Qed.

(** Without the help option they are accepted whatever has been seen. *)
Lemma parse_loop_no_location_accepts argv :
  forallb (fun o => negb (is_location o)) argv = true ->
  forallb (fun o => negb (is_help o)) argv = true ->
  forall seen ns, exists ns', parse_loop counts p seen ns argv = Parsed ns'.
Proof.
  induction argv as [|o rest IH]; intros Hno Hnh seen ns; simpl.
  - now exists ns.
  - simpl in Hno, Hnh.
    apply andb_true_iff in Hno as [Ho Hrest].
    apply andb_true_iff in Hnh as [Hh Hrh].
    unfold take_action.
    destruct o; try discriminate Ho; try discriminate Hh; cbn;
      rewrite ?timeout_type_spec, ?timeout_action_spec; cbn;
      apply IH; assumption.
Qed.

Lemma parse_loop_seen_irrelevant argv :
  forallb (fun o => negb (is_location o)) argv = true ->
  forall seen1 seen2 ns,
    parse_loop counts p seen1 ns argv = parse_loop counts p seen2 ns argv.
Proof.
  induction argv as [|o rest IH]; intros Hno seen1 seen2 ns; simpl.
  - reflexivity.
  - simpl in Hno. apply andb_true_iff in Hno as [Ho Hrest].
    unfold take_action.
    destruct o; try discriminate Ho; cbn;
      rewrite ?timeout_type_spec, ?timeout_action_spec; cbn;
      first [apply IH; assumption | reflexivity].
Qed.

End ParserFacts.

(* ------------------------------------------------------------------ *)
(** ** Runs of the script *)

Ltac unfold_script :=
  unfold run, main, build_and_install, native_image, write_kernel_json,
         subprocess_run, attempt, setenv, emit, get_environ,
         bind, ret, exit, raise in *.

Ltac script_cbn H :=
  cbn beta iota zeta delta
    [fst snd trace environ app written flat_map In negb] in H.

Ltac case_step H :=
  match type of H with
  | context [match ?x with _ => _ end] =>
      lazymatch x with
      | context [match _ with _ => _ end] => fail
      | _ => destruct x eqn:?; script_cbn H; try contradiction
      end
  end.

Lemma run_written (h : Host) (argv : list Occurrence) (path : string) (obj : json) :
  In (path, obj) (written (snd (run h argv))) ->
  exists p ns home dest overrides,
    make_parser = Some p
    /\ parse_args (argparse_counts_default h) p argv = Parsed ns
    /\ resolve_graalvm_home (fixed_up ns) (os_environ h) = Some home
    /\ str_truthy home = true
    /\ env (fixed_up ns) = Some overrides
    /\ install_kernel_spec h (path_join (module_dir h) "graalvm")
         (kernel_name_of (fixed_up ns)) (user (fixed_up ns))
         (if sys_prefix (fixed_up ns) then sys_dot_prefix h
          else prefix (fixed_up ns)) = Some dest
    /\ path = path_join dest "kernel.json"
    /\ obj = kernel_json (fixed_up ns) overrides home dest.
Proof.
  intros H.
  destruct make_parser_spec as (p & Hp & _).
  exists p.
  unfold_script. rewrite Hp in H.
  destruct (parse_args (argparse_counts_default h) p argv) as [ns|[| |]] eqn:Hparse;
    script_cbn H; try contradiction.
  exists ns. fold (fixed_up ns) in *.
  set (args := fixed_up ns) in *.
  repeat case_step H.
  all: try match goal with
           | E : negb (opt_truthy None) = false |- _ => discriminate E
           end.
  all: destruct H as [H|[]]; injection H as <- <-.
  all: match goal with
       | E : negb (opt_truthy (Some ?s)) = false |- _ =>
           apply negb_false_iff in E; cbn in E; exists s
       end.
  all: do 2 eexists; repeat split; try reflexivity; try eassumption.
  all: unfold kernel_name_of, opt_truthy;
       match goal with
       | E : native _ = _ |- _ => rewrite E
       end;
       try match goal with
           | E : str_truthy _ = _ |- _ => rewrite E
           end;
       eassumption.
Qed.

(* ------------------------------------------------------------------ *)
(** ** The descriptor *)

Lemma kernel_json_shape (args : Namespace) (overrides : pydict string)
    (graalvm_home install_dest : string) :
  kernel_json args overrides graalvm_home install_dest
  = JObj [ ("argv", JArr (map JStr (kernel_args args graalvm_home install_dest)));
           ("display_name",
              JStr (if opt_truthy (native args) then "GraalVM Native" else "GraalVM"));
           ("language", JStr "GraalVM");
           ("interrupt_mode", JStr "message");
           ("env", JObj (merge_env overrides [("GRAALVM_HOME", JStr graalvm_home)])) ].
Proof.
  unfold kernel_json, kernel_json_literal, merge_env.
  generalize [("GRAALVM_HOME", JStr graalvm_home)] as e.
  induction overrides as [|[k v] r IH]; intros e; simpl.
  - reflexivity.
  - apply IH.
Qed.

Lemma dict_get_absent {V} (k : string) (d : pydict V) :
  ~ In k (dict_keys d) -> dict_get k d = None.
Proof.
  induction d as [|[k0 v0] d IH]; simpl; intros H; [reflexivity|].
  destruct (String.eqb_spec k k0) as [->|Hne].
  - exfalso. apply H. now left.
  - apply IH. intros Hin. apply H. now right.
Qed.

(** Assignment semantics of the merge: an override wins, every other key
    keeps its base value. *)
Lemma merge_env_get (overrides : pydict string) : forall base k,
  NoDup (dict_keys overrides) ->
  dict_get k (merge_env overrides base)
  = match dict_get k overrides with
    | Some v => Some (JStr v)
    | None => dict_get k base
    end.
Proof.
  unfold merge_env.
  induction overrides as [|[k0 v0] r IH]; intros base k Hnd; simpl.
  - reflexivity.
  - inversion Hnd as [|? ? Hnotin Hnd']; subst.
    rewrite IH by assumption.
    destruct (String.eqb_spec k k0) as [->|Hne].
    + rewrite (dict_get_absent k0 r Hnotin). apply dict_get_set_same.
    + destruct (dict_get k r); [reflexivity|].
      now apply dict_get_set_other.
Qed.

Lemma fixed_up_native ns : native (fixed_up ns) = native ns.
Proof.
  unfold fixed_up, with_user_default, with_env_default.
  destruct ns as [u s x e g n]; destruct e; cbn;
    destruct (negb s && negb (str_truthy x)); reflexivity.
Qed.

Lemma fixed_up_graalvm ns : graalvm (fixed_up ns) = graalvm ns.
Proof.
  unfold fixed_up, with_user_default, with_env_default.
  destruct ns as [u s x e g n]; destruct e; cbn;
    destruct (negb s && negb (str_truthy x)); reflexivity.
Qed.

Lemma fixed_up_env ns :
  env (fixed_up ns) = Some (match env ns with Some e => e | None => [] end).
Proof.
  unfold fixed_up, with_user_default, with_env_default.
  destruct ns as [u s x e g n]; destruct e; cbn;
    destruct (negb s && negb (str_truthy x)); reflexivity.
Qed.

(* ------------------------------------------------------------------ *)
(** ** The example command line *)

Lemma parse_timeout_example counts p :
  make_parser = Some p ->
  parse_args counts p timeout_example
  = Parsed (mkNamespace false false "" (Some [("IJAVA_TIMEOUT", "-1")])
                        (Some "/opt/gvm") None).
Proof.
  intros Hp. unfold parse_args, timeout_example. simpl parse_loop.
  unfold take_action.
  rewrite (timeout_type_spec p Hp). cbn.
  rewrite (timeout_action_spec p Hp). reflexivity.
Qed.

(** C1, as the code has it: for [--timeout NO_TIMEOUT --graalvm /opt/gvm]
    without [--native], every descriptor the script writes has the
    environment [{"GRAALVM_HOME": "/opt/gvm", "IJAVA_TIMEOUT": "-1"}] (the
    timeout key is [IJAVA_TIMEOUT], the value of [NAME_MAP["timeout"]]) and
    the launch command [/opt/gvm/bin/java -jar <dest>/IGraalVM.jar
    {connection_file}], where [dest] is the directory the registrar
    returned for a user installation of the kernel [GraalVM]. *)
Theorem timeout_example_descriptor (h : Host) (path : string) (obj : json) :
  In (path, obj) (written (snd (run h timeout_example))) ->
  exists install_dest,
    install_kernel_spec h (path_join (module_dir h) "graalvm") "GraalVM" true ""
      = Some install_dest
    /\ path = path_join install_dest "kernel.json"
    /\ getitem "env" obj
       = Some (JObj [ ("GRAALVM_HOME", JStr "/opt/gvm");
                      ("IJAVA_TIMEOUT", JStr "-1") ])
    /\ getitem "argv" obj
       = Some (JArr [ JStr "/opt/gvm/bin/java"; JStr "-jar";
                      JStr (install_dest ++ "/IGraalVM.jar");
                      JStr "{connection_file}" ]).
Proof.
  intros H.
  apply run_written in H
    as (p & ns & home & dest & overrides & Hp & Hparse & Hhome & _ & Henv
        & Hinst & -> & ->).
  rewrite (parse_timeout_example _ p Hp) in Hparse. injection Hparse as <-.
  cbn in Hhome, Henv, Hinst.
  injection Hhome as <-. injection Henv as <-.
  exists dest. repeat split; try assumption; reflexivity.
Qed.

Lemma timeout_example_descriptor_witness :
  exists install_dest,
    install_kernel_spec example_host
      (path_join (module_dir example_host) "graalvm") "GraalVM" true ""
      = Some install_dest
    /\ example_descriptor_path = path_join install_dest "kernel.json"
    /\ getitem "env" example_descriptor
       = Some (JObj [ ("GRAALVM_HOME", JStr "/opt/gvm");
                      ("IJAVA_TIMEOUT", JStr "-1") ])
    /\ getitem "argv" example_descriptor
       = Some (JArr [ JStr "/opt/gvm/bin/java"; JStr "-jar";
                      JStr (install_dest ++ "/IGraalVM.jar");
                      JStr "{connection_file}" ]).
Proof.
  apply (timeout_example_descriptor example_host).
  vm_compute. left. reflexivity.
Defined.

(** On [example_host] the script writes one descriptor for the example
    command line; its environment has no key [IGRAALVM_TIMEOUT], the
    timeout sits under [IJAVA_TIMEOUT]. *)
Lemma timeout_example_counterexample :
  written (snd (run example_host timeout_example))
  = [ (example_descriptor_path, example_descriptor) ]
  /\ getitem "env" example_descriptor
     = Some (JObj [ ("GRAALVM_HOME", JStr "/opt/gvm");
                    ("IJAVA_TIMEOUT", JStr "-1") ])
  /\ dict_get "IGRAALVM_TIMEOUT"
       [ ("GRAALVM_HOME", JStr "/opt/gvm"); ("IJAVA_TIMEOUT", JStr "-1") ]
     = None
  /\ getitem "env" example_descriptor
     <> Some (JObj [ ("GRAALVM_HOME", JStr "/opt/gvm");
                     ("IGRAALVM_TIMEOUT", JStr "-1") ]).
Proof.
  repeat split; try reflexivity.
  vm_compute. discriminate.
Qed.

(* ------------------------------------------------------------------ *)
(** ** Native and non-native descriptors *)

Lemma run_written_native (h : Host) (argv : list Occurrence) (path : string)
    (obj : json) :
  In (path, obj) (written (snd (run h argv))) ->
  exists args overrides home dest,
    native args = last_value native_value argv
    /\ obj = kernel_json args overrides home dest.
Proof.
  intros H.
  apply run_written in H
    as (p & ns & home & dest & overrides & Hp & Hparse & _ & _ & _ & _ & _ & ->).
  exists (fixed_up ns), overrides, home, dest. split; [|reflexivity].
  rewrite fixed_up_native.
  apply (parse_loop_fields _ p Hp) in Hparse as (_ & -> & _).
  cbn. now destruct (last_value native_value argv).
Qed.

(** C2, as the code has it: in a descriptor the script writes, when the
    last [--native] carries a non-empty language list, [argv[0]] ends with
    [IGraalVM] and [display_name] is ["GraalVM Native"], which contains
    ["Native"], while [language] stays ["GraalVM"], which does not; when
    [--native] is absent or empty, [argv] is a path ending in [/bin/java],
    then [-jar], then a path ending in [IGraalVM.jar], then the connection
    file placeholder, and [display_name] and [language] are ["GraalVM"]. *)
Theorem native_identity (h : Host) (argv : list Occurrence) (path : string)
    (obj : json) :
  In (path, obj) (written (snd (run h argv))) ->
  if opt_truthy (last_value native_value argv)
  then
    exists argv0,
      getitem "argv" obj = Some (JArr [ JStr argv0; JStr "{connection_file}" ])
      /\ endswith "IGraalVM" argv0 = true
      /\ getitem "display_name" obj = Some (JStr "GraalVM Native")
      /\ contains "Native" "GraalVM Native" = true
      /\ getitem "language" obj = Some (JStr "GraalVM")
      /\ contains "Native" "GraalVM" = false
  else
    exists argv0 jar,
      getitem "argv" obj
        = Some (JArr [ JStr argv0; JStr "-jar"; JStr jar; JStr "{connection_file}" ])
      /\ endswith "/bin/java" argv0 = true
      /\ endswith "IGraalVM.jar" jar = true
      /\ getitem "display_name" obj = Some (JStr "GraalVM")
      /\ getitem "language" obj = Some (JStr "GraalVM").
Proof.
  intros H.
  apply run_written_native in H as (args & overrides & home & dest & Hn & ->).
  rewrite kernel_json_shape. unfold kernel_args. rewrite Hn.
  destruct (opt_truthy (last_value native_value argv)).
  - exists (dest ++ "/IGraalVM"). repeat split; try reflexivity.
    now apply endswith_app_r.
  - exists (home ++ "/bin/java"), (dest ++ "/IGraalVM.jar").
    repeat split; try reflexivity.
    + apply endswith_app.
    + now apply endswith_app_r.
Qed.

Lemma native_identity_witness :
  exists argv0,
    getitem "argv" native_example_descriptor
      = Some (JArr [ JStr argv0; JStr "{connection_file}" ])
    /\ endswith "IGraalVM" argv0 = true
    /\ getitem "display_name" native_example_descriptor = Some (JStr "GraalVM Native")
    /\ contains "Native" "GraalVM Native" = true
    /\ getitem "language" native_example_descriptor = Some (JStr "GraalVM")
    /\ contains "Native" "GraalVM" = false.
Proof.
  apply (native_identity example_host native_example native_example_path).
  vm_compute. left. reflexivity.
Defined.

(** With [--native js,python] the script on [example_host] writes a
    descriptor whose [language] is ["GraalVM"], without ["Native"] in it;
    with an empty [--native] the launch command is the Java one, and its
    first word does not end with [IGraalVM]. *)
Lemma native_identity_counterexample :
  (written (snd (run example_host native_example))
   = [ (native_example_path, native_example_descriptor) ]
   /\ getitem "language" native_example_descriptor = Some (JStr "GraalVM")
   /\ contains "Native" "GraalVM" = false)
  /\ (exists path obj,
        written (snd (run example_host [ OptGraalvm "/opt/gvm"; OptNative "" ]))
        = [ (path, obj) ]
        /\ getitem "argv" obj
           = Some (JArr [ JStr "/opt/gvm/bin/java"; JStr "-jar";
                          JStr "/home/ada/.local/share/jupyter/kernels/GraalVM/IGraalVM.jar";
                          JStr "{connection_file}" ])
        /\ endswith "IGraalVM" "/opt/gvm/bin/java" = false).
Proof.
  split.
  - repeat split; reflexivity.
  - do 2 eexists. repeat split; reflexivity.
Qed.

(* ------------------------------------------------------------------ *)
(** ** The timeout alias *)

(** C3: whatever string is given to [--timeout], the command line with
    that one option is accepted and stores, under the key
    [NAME_MAP["timeout"]], the string ["-1"] (the entry of the alias table)
    when the value is ["NO_TIMEOUT"] and the value itself otherwise; the
    same holds for the last [--timeout] of any accepted command line. *)
Theorem timeout_alias_resolution (counts : bool) (p : Parser)
    (key value : string) :
  make_parser = Some p ->
  dict_get "timeout" NAME_MAP = Some key ->
  exists resolved,
    (value = "NO_TIMEOUT" ->
       dict_get value (dict_get_default key [] ALIASES) = Some resolved
       /\ resolved = "-1")
    /\ (value <> "NO_TIMEOUT" -> resolved = value)
    /\ (exists ns, parse_args counts p [OptTimeout value] = Parsed ns
                   /\ env ns = Some [(key, resolved)])
    /\ (forall argv ns,
          parse_args counts p argv = Parsed ns ->
          last_value timeout_value argv = Some value ->
          exists e, env ns = Some e /\ dict_get key e = Some resolved).
Proof.
  intros Hp Hkey. injection Hkey as <-.
  exists (resolve_alias value). unfold resolve_alias.
  repeat split.
  - subst value. reflexivity.
  - subst value. reflexivity.
  - intros Hne. apply String.eqb_neq in Hne. now rewrite Hne.
  - eexists. unfold parse_args. simpl parse_loop. unfold take_action.
    rewrite (timeout_type_spec p Hp). cbn.
    rewrite (timeout_action_spec p Hp). cbn. split; reflexivity.
  - intros argv ns Hparse Hlast.
    apply (parse_loop_fields _ p Hp) in Hparse as (_ & _ & He).
    unfold env_after in He. rewrite Hlast in He. cbn in He.
    eexists. split; [exact He|]. reflexivity.
Qed.

Lemma timeout_alias_resolution_witness :
  exists resolved,
    ("NO_TIMEOUT" = "NO_TIMEOUT" ->
       dict_get "NO_TIMEOUT" (dict_get_default "IJAVA_TIMEOUT" [] ALIASES)
       = Some resolved
       /\ resolved = "-1")
    /\ ("NO_TIMEOUT" <> "NO_TIMEOUT" -> resolved = "NO_TIMEOUT")
    /\ (exists ns,
          parse_args false script_parser [OptTimeout "NO_TIMEOUT"] = Parsed ns
          /\ env ns = Some [("IJAVA_TIMEOUT", resolved)])
    /\ (forall argv ns,
          parse_args false script_parser argv = Parsed ns ->
          last_value timeout_value argv = Some "NO_TIMEOUT" ->
          exists e, env ns = Some e /\ dict_get "IJAVA_TIMEOUT" e = Some resolved).
Proof.
  apply (timeout_alias_resolution false script_parser
           "IJAVA_TIMEOUT" "NO_TIMEOUT").
  - reflexivity.
  - reflexivity.
Defined.

(* ------------------------------------------------------------------ *)
(** ** The install location *)

Lemma location_inv_initial : location_inv [] default_namespace.
Proof. unfold location_inv; cbn; repeat split; intros; discriminate. Qed.

Lemma active_modes_fixed_up (seen : list Action) (ns : Namespace) :
  location_inv seen ns -> exists m, active_modes (fixed_up ns) = [m].
Proof.
  unfold location_inv, fixed_up, with_user_default, with_env_default, active_modes.
  destruct ns as [u s x e g n]. cbn [user sys_prefix prefix env].
  intros (Hu & Hs & Hx & H1 & H2 & H3).
  destruct e; cbn [user sys_prefix prefix env];
    destruct u, s, (str_truthy x) eqn:Ex; cbn; rewrite ?Ex; cbn;
    try (eexists; reflexivity);
    exfalso;
    repeat match goal with
           | H : true = true -> _ |- _ => specialize (H eq_refl)
           end;
    repeat match goal with
           | H : mem_action _ _ = true |- _ => rewrite H in *
           end;
    discriminate.
Qed.

(** C4: after an accepted command line and the script's default, exactly
    one of the three install-location modes is on; without any of the three
    options it is the user mode. *)
Theorem install_location_exactly_one (counts : bool) (p : Parser)
    (argv : list Occurrence) (ns : Namespace) :
  make_parser = Some p ->
  parse_args counts p argv = Parsed ns ->
  (exists m, active_modes (fixed_up ns) = [m])
  /\ (forallb (fun o => negb (is_location o)) argv = true ->
      active_modes (fixed_up ns) = [UserMode]).
Proof.
  intros Hp Hparse. split.
  - destruct (parse_loop_location_inv counts p Hp argv [] default_namespace ns
                location_inv_initial Hparse) as (seen & Hinv).
    eapply active_modes_fixed_up; eassumption.
  - intros Hno.
    destruct (parse_loop_no_location counts p Hp argv Hno [] default_namespace
                ns Hparse) as (Hu & Hs & Hx).
    unfold fixed_up, with_user_default, with_env_default, active_modes.
    destruct ns as [u s x e g n]. cbn in Hu, Hs, Hx. subst u s x.
    destruct e; reflexivity.
Qed.

Lemma install_location_exactly_one_witness :
  (exists m,
     active_modes
       (fixed_up (mkNamespace false false "/opt/env" None (Some "/opt/gvm") None))
     = [m])
  /\ (forallb (fun o => negb (is_location o))
        [ OptPrefix "/opt/env"; OptGraalvm "/opt/gvm" ] = true ->
      active_modes
        (fixed_up (mkNamespace false false "/opt/env" None (Some "/opt/gvm") None))
      = [UserMode]).
Proof.
  apply (install_location_exactly_one false script_parser
           [ OptPrefix "/opt/env"; OptGraalvm "/opt/gvm" ]).
  - reflexivity.
  - reflexivity.
Defined.

(** An empty [--prefix] in a command line without other install-location
    options changes nothing in the parse. *)
Lemma parse_loop_empty_prefix (counts : bool) (p : Parser) (post : list Occurrence) :
  make_parser = Some p ->
  forallb (fun o => negb (is_location o)) post = true ->
  forall pre seen ns,
    forallb (fun o => negb (is_location o)) pre = true ->
    prefix ns = "" ->
    mem_action act_user seen = false ->
    mem_action act_sys_prefix seen = false ->
    parse_loop counts p seen ns (pre ++ OptPrefix "" :: post)
    = parse_loop counts p seen ns (pre ++ post).
Proof.
  intros Hp Hpost.
  induction pre as [|o pre IH]; intros seen ns Hpre Hx Hu Hs.
  - cbn [app parse_loop]. unfold take_action. cbn.
    rewrite Hu, Hs. cbn. rewrite andb_false_r.
    replace (mkNamespace (user ns) (sys_prefix ns) "" (env ns) (graalvm ns) (native ns))
      with ns by (destruct ns; cbn in Hx; now subst).
    apply parse_loop_seen_irrelevant; assumption.
  - simpl in Hpre. apply andb_true_iff in Hpre as [Ho Hpre].
    cbn [app parse_loop]. unfold take_action.
    destruct o; try discriminate Ho; cbn;
      rewrite ?(timeout_type_spec p Hp), ?(timeout_action_spec p Hp); cbn;
      first [apply IH; solve [auto] | reflexivity].
Qed.

(** C10: in a command line without other install-location options, an
    empty [--prefix] is not noticed: the run is the same, event for event,
    as without it (also when the command line asks for the help); unless
    the help is asked for, the command line is accepted, and whenever it is
    accepted the installation is a user installation with the prefix left
    empty. *)
Theorem empty_prefix_is_user_mode (h : Host) (pre post : list Occurrence) :
  forallb (fun o => negb (is_location o)) (pre ++ post) = true ->
  run h (pre ++ OptPrefix "" :: post) = run h (pre ++ post)
  /\ (forallb (fun o => negb (is_help o)) (pre ++ post) = true ->
      exists ns,
        parse_args (argparse_counts_default h) script_parser
          (pre ++ OptPrefix "" :: post) = Parsed ns
        /\ user (fixed_up ns) = true
        /\ sys_prefix (fixed_up ns) = false
        /\ prefix (fixed_up ns) = ""
        /\ active_modes (fixed_up ns) = [UserMode])
  /\ (forall ns,
        parse_args (argparse_counts_default h) script_parser
          (pre ++ OptPrefix "" :: post) = Parsed ns ->
        user (fixed_up ns) = true
        /\ sys_prefix (fixed_up ns) = false
        /\ prefix (fixed_up ns) = ""
        /\ active_modes (fixed_up ns) = [UserMode]).
Proof.
  intros Hno.
  assert (Hp : make_parser = Some script_parser) by reflexivity.
  pose proof Hno as Hno'.
  rewrite forallb_app in Hno'. apply andb_true_iff in Hno' as [Hpre Hpost].
  assert (Heq : parse_args (argparse_counts_default h) script_parser
                  (pre ++ OptPrefix "" :: post)
                = parse_args (argparse_counts_default h) script_parser (pre ++ post))
    by (apply parse_loop_empty_prefix; auto).
  assert (Hmode : forall ns,
            parse_args (argparse_counts_default h) script_parser
              (pre ++ OptPrefix "" :: post) = Parsed ns ->
            user (fixed_up ns) = true
            /\ sys_prefix (fixed_up ns) = false
            /\ prefix (fixed_up ns) = ""
            /\ active_modes (fixed_up ns) = [UserMode]).
  { intros ns Hparse. rewrite Heq in Hparse.
    destruct (parse_loop_no_location (argparse_counts_default h) script_parser Hp
                (pre ++ post) Hno [] default_namespace ns Hparse)
      as (Hu & Hs & Hx).
    unfold fixed_up, with_user_default, with_env_default, active_modes.
    destruct ns as [u s x e g n]. cbn in Hu, Hs, Hx. subst u s x.
    destruct e; repeat split; reflexivity. }
  split; [|split].
  - unfold run, main. rewrite Hp, Heq. reflexivity.
  - intros Hnh.
    destruct (parse_loop_no_location_accepts (argparse_counts_default h)
                script_parser Hp (pre ++ post) Hno Hnh [] default_namespace)
      as (ns & Hparse).
    exists ns. split; [rewrite Heq; exact Hparse|].
    apply Hmode. rewrite Heq. exact Hparse.
  - exact Hmode.
Qed.

Lemma empty_prefix_is_user_mode_witness :
  run example_host ([OptGraalvm "/opt/gvm"] ++ OptPrefix "" :: [OptTimeout "30"])
  = run example_host ([OptGraalvm "/opt/gvm"] ++ [OptTimeout "30"])
  /\ exists ns,
       parse_args (argparse_counts_default example_host) script_parser
         ([OptGraalvm "/opt/gvm"] ++ OptPrefix "" :: [OptTimeout "30"]) = Parsed ns
       /\ user (fixed_up ns) = true
       /\ sys_prefix (fixed_up ns) = false
       /\ prefix (fixed_up ns) = ""
       /\ active_modes (fixed_up ns) = [UserMode].
Proof.
  destruct (empty_prefix_is_user_mode example_host
              [OptGraalvm "/opt/gvm"] [OptTimeout "30"] eq_refl)
    as (Hrun & Haccepted & _).
  split; [exact Hrun|]. apply Haccepted. reflexivity.
Defined.

(* ------------------------------------------------------------------ *)
(** ** Early exits *)

Lemma make_parser_script_parser : make_parser = Some script_parser.
Proof. reflexivity. Qed.

(** C5: on an accepted command line without [--graalvm], and without
    [GRAALVM_HOME] in the environment, the script prints the guidance and
    exits with status 0, having done nothing else. *)
Theorem missing_runtime_exits_zero (h : Host) (argv : list Occurrence)
    (ns : Namespace) :
  parse_args (argparse_counts_default h) script_parser argv = Parsed ns ->
  last_value graalvm_value argv = None ->
  dict_mem "GRAALVM_HOME" (os_environ h) = false ->
  run h argv = (Exited 0, [Print guidance]).
Proof.
  intros Hparse Hflag Henv.
  unfold run, main. rewrite make_parser_script_parser, Hparse.
  fold (fixed_up ns).
  assert (Hhome : resolve_graalvm_home (fixed_up ns) (os_environ h) = None).
  { unfold resolve_graalvm_home. rewrite fixed_up_graalvm.
    apply (parse_loop_fields _ _ make_parser_script_parser) in Hparse
      as (Hg & _ & _).
    rewrite Hflag in Hg. cbn in Hg. rewrite Hg, Henv. reflexivity. }
  unfold bind, get_environ. cbn [environ]. rewrite Hhome. reflexivity.
Qed.

Lemma missing_runtime_exits_zero_witness :
  run example_host [ OptTimeout "NO_TIMEOUT"; OptSysPrefix ]
  = (Exited 0, [Print guidance]).
Proof.
  apply (missing_runtime_exits_zero example_host
           [ OptTimeout "NO_TIMEOUT"; OptSysPrefix ]
           (mkNamespace false true "" (Some [("IJAVA_TIMEOUT", "-1")]) None None)).
  - reflexivity.
  - reflexivity.
  - reflexivity.
Defined.

Ltac split_trace H :=
  repeat match type of H with
         | _ :: _ = (?pre ++ _ :: _)%list =>
             destruct pre as [|? pre]; cbn [app] in H;
             [ first [ discriminate H | injection H as ? ?; subst ]
             | injection H as ? H ]
         | [] = (?pre ++ _ :: _)%list => destruct pre; discriminate H
         end.

(** C6: a command the script has run and that returned a non-zero code is
    the last thing the script did; the script called [exit] with that code
    (so an exit status between 1 and 255 is passed on as it is), and had
    not run that command before. *)
Theorem failed_command_exits (h : Host) (argv : list Occurrence)
    (pre post : list Event) (cmd : list string) (e : pydict string) (rc : Z) :
  snd (run h argv) = (pre ++ Run cmd e :: post)%list ->
  returncode h cmd e = Some rc ->
  rc <> 0 ->
  post = []
  /\ fst (run h argv) = Exited rc
  /\ (forall e', ~ In (Run cmd e') pre)
  /\ (0 < rc < 256 -> exit_status (fst (run h argv)) = rc).
Proof.
  intros H Hrc Hnz.
  cut (post = [] /\ fst (run h argv) = Exited rc
       /\ (forall e', ~ In (Run cmd e') pre)).
  { intros (Hpost & Hout & Hpre). repeat split; auto.
    intros Hrange. rewrite Hout. cbn [exit_status]. apply Z.mod_small. lia. }
  remember (run h argv) as r eqn:Hr.
  unfold_script. rewrite make_parser_script_parser in Hr.
  destruct (parse_args (argparse_counts_default h) script_parser argv)
    as [ns|[| |]] eqn:Hparse;
    cbn beta iota zeta delta [fst snd trace environ app] in Hr.
  2-4: subst r; cbn in H; destruct pre as [|? [|? pre]]; discriminate H.
  fold (fixed_up ns) in *.
  set (args := fixed_up ns) in *.
  repeat match type of Hr with
         | context [match ?x with _ => _ end] =>
             lazymatch x with
             | context [match _ with _ => _ end] => fail
             | _ => destruct x eqn:?;
                    cbn beta iota zeta delta [fst snd trace environ app negb] in Hr
             end
         end.
  all: subst r; cbn [fst snd] in *.
  all: split_trace H.
  all: try congruence.
  all: repeat match goal with
              | H1 : ?x = Some ?a, H2 : ?x = Some ?b |- _ =>
                  assert (a = b) by congruence; subst a; clear H2
              end.
  all: try match goal with
           | E : negb (?r =? 0) = false, N : ?r <> 0 |- _ =>
               apply negb_false_iff in E; apply Z.eqb_eq in E; contradiction
           end.
  all: repeat split; try reflexivity.
  all: intros e' Hin; cbn [In] in Hin;
       repeat destruct Hin as [Hin|Hin]; try discriminate Hin; try contradiction.
  all: injection Hin as Hcmd _; unfold native_run_args in Hcmd;
       cbn [app] in Hcmd; discriminate Hcmd.
Qed.

Lemma failed_command_exits_witness :
  ([] = @nil Event
   /\ fst (run failing_build_host timeout_example) = Exited 3
   /\ (forall e', ~ In (Run ["mvn"; "package"] e') [Setenv "JAVA_HOME" "/opt/gvm"])
   /\ (0 < 3 < 256 -> exit_status (fst (run failing_build_host timeout_example)) = 3))
  /\ fst (run failing_native_host native_example) = Exited 7.
Proof.
  split.
  - apply (failed_command_exits failing_build_host timeout_example
             [Setenv "JAVA_HOME" "/opt/gvm"] []
             ["mvn"; "package"]
             [("HOME", "/home/ada"); ("JAVA_HOME", "/opt/gvm")] 3).
    + reflexivity.
    + reflexivity.
    + discriminate.
  - refine (proj1 (proj2
      (failed_command_exits failing_native_host native_example
         (removelast (snd (run failing_native_host native_example))) []
         (native_run_args "/opt/gvm" ["js"; "python"])
         [("HOME", "/home/ada"); ("JAVA_HOME", "/opt/gvm")] 7 _ _ _))).
    + reflexivity.
    + reflexivity.
    + discriminate.
Defined.

(* ------------------------------------------------------------------ *)
(** ** The environment block and the fixed fields *)

Lemma run_written_env (h : Host) (argv : list Occurrence) (path : string)
    (obj : json) :
  In (path, obj) (written (snd (run h argv))) ->
  exists args home dest,
    runtime_home h argv = Some home
    /\ obj = kernel_json args
               (match last_value timeout_value argv with
                | Some v => [("IJAVA_TIMEOUT", resolve_alias v)]
                | None => []
                end) home dest.
Proof.
  intros H.
  apply run_written in H
    as (p & ns & home & dest & overrides & Hp & Hparse & Hhome & _ & Henv
        & _ & _ & ->).
  exists (fixed_up ns), home, dest.
  apply (parse_loop_fields _ p Hp) in Hparse as (Hg & _ & He).
  cbn in Hg, He. unfold env_after in He.
  rewrite fixed_up_env, He in Henv. injection Henv as <-.
  split.
  - unfold runtime_home. unfold resolve_graalvm_home in *.
    rewrite fixed_up_graalvm, Hg in Hhome. cbn.
    destruct (last_value graalvm_value argv); exact Hhome.
  - destruct (last_value timeout_value argv); reflexivity.
Qed.

(** C7: the environment block of a descriptor the script writes maps
    [GRAALVM_HOME] to the runtime home the script resolved and the timeout
    key to the alias-expanded value of the last [--timeout]; and in general
    the block is built by assignment: whatever dictionary of overrides is
    merged, each of its keys ends up with the override's value, the base
    key [GRAALVM_HOME] included, and the base value stays where no override
    names it. *)
Theorem descriptor_env_overrides (h : Host) (argv : list Occurrence)
    (path : string) (obj : json) :
  In (path, obj) (written (snd (run h argv))) ->
  (exists home e,
     runtime_home h argv = Some home
     /\ getitem "env" obj = Some (JObj e)
     /\ dict_get "GRAALVM_HOME" e = Some (JStr home)
     /\ (forall value key,
           last_value timeout_value argv = Some value ->
           dict_get "timeout" NAME_MAP = Some key ->
           dict_get key e = Some (JStr (resolve_alias value))))
  /\ (forall args overrides home dest,
        NoDup (dict_keys overrides) ->
        exists e,
          getitem "env" (kernel_json args overrides home dest) = Some (JObj e)
          /\ (forall k v, dict_get k overrides = Some v ->
                          dict_get k e = Some (JStr v))
          /\ (dict_get "GRAALVM_HOME" overrides = None ->
              dict_get "GRAALVM_HOME" e = Some (JStr home))).
Proof.
  intros H. split.
  - apply run_written_env in H as (args & home & dest & Hhome & ->).
    rewrite kernel_json_shape.
    eexists home, _. split; [exact Hhome|]. split; [reflexivity|].
    destruct (last_value timeout_value argv) as [v|]; cbn.
    + split; [reflexivity|]. intros value key Hv Hk.
      injection Hv as <-. injection Hk as <-. reflexivity.
    + split; [reflexivity|]. intros value key Hv. discriminate Hv.
  - intros args overrides home dest Hnd.
    rewrite kernel_json_shape. eexists. split; [reflexivity|]. split.
    + intros k v Hk. rewrite merge_env_get by assumption. now rewrite Hk.
    + intros Hk. rewrite merge_env_get by assumption. now rewrite Hk.
Qed.

Lemma descriptor_env_overrides_witness :
  (exists home e,
     runtime_home example_host timeout_example = Some home
     /\ getitem "env" example_descriptor = Some (JObj e)
     /\ dict_get "GRAALVM_HOME" e = Some (JStr home)
     /\ (forall value key,
           last_value timeout_value timeout_example = Some value ->
           dict_get "timeout" NAME_MAP = Some key ->
           dict_get key e = Some (JStr (resolve_alias value))))
  /\ (forall args overrides home dest,
        NoDup (dict_keys overrides) ->
        exists e,
          getitem "env" (kernel_json args overrides home dest) = Some (JObj e)
          /\ (forall k v, dict_get k overrides = Some v ->
                          dict_get k e = Some (JStr v))
          /\ (dict_get "GRAALVM_HOME" overrides = None ->
              dict_get "GRAALVM_HOME" e = Some (JStr home))).
Proof.
  apply (descriptor_env_overrides example_host timeout_example
           example_descriptor_path example_descriptor).
  vm_compute. left. reflexivity.
Defined.

(** C9: every descriptor the script writes has [interrupt_mode] set to
    ["message"], whatever the command line. *)
Theorem interrupt_mode_is_message (h : Host) (argv : list Occurrence)
    (path : string) (obj : json) :
  In (path, obj) (written (snd (run h argv))) ->
  getitem "interrupt_mode" obj = Some (JStr "message").
Proof.
  intros H.
  apply run_written_native in H as (args & overrides & home & dest & _ & ->).
  rewrite kernel_json_shape. reflexivity.
Qed.

Lemma interrupt_mode_is_message_witness :
  getitem "interrupt_mode" native_example_descriptor = Some (JStr "message").
Proof.
  apply (interrupt_mode_is_message example_host native_example native_example_path).
  vm_compute. left. reflexivity.
Defined.

(* ------------------------------------------------------------------ *)
(** ** The text of the descriptor *)

Lemma insert_item_map {V W} (f : V -> W) (x : string * V) (l : list (string * V)) :
  insert_item (fst x, f (snd x)) (map (fun kv => (fst kv, f (snd kv))) l)
  = map (fun kv => (fst kv, f (snd kv))) (insert_item x l).
Proof.
  induction l as [|y r IH]; simpl; [reflexivity|].
  destruct (String.leb (fst x) (fst y)); simpl; [reflexivity|].
  now rewrite IH.
Qed.

(** Encoding the values and sorting by key commute. *)
Lemma sort_items_map {V W} (f : V -> W) (d : pydict V) :
  sort_items (map (fun kv => (fst kv, f (snd kv))) d)
  = map (fun kv => (fst kv, f (snd kv))) (sort_items d).
Proof.
  unfold sort_items. induction d as [|x r IH]; simpl; [reflexivity|].
  rewrite IH. apply insert_item_map.
Qed.

Lemma leb_false_flip (a b : string) : String.leb a b = false -> String.leb b a = true.
Proof.
  intros H. destruct (String.leb_total a b) as [E|E]; [congruence|exact E].
Qed.

Lemma insert_item_sorted {V} (x : string * V) (l : list (string * V)) :
  Sorted key_le l -> Sorted key_le (insert_item x l).
Proof.
  induction l as [|y r IH]; intros Hs; simpl.
  - repeat constructor.
  - destruct (String.leb (fst x) (fst y)) eqn:E.
    + constructor; [exact Hs|]. constructor. exact E.
    + inversion Hs as [|? ? Hr Hhd]; subst.
      constructor; [now apply IH|].
      destruct r as [|z r']; simpl.
      * constructor. now apply leb_false_flip.
      * destruct (String.leb (fst x) (fst z)).
        -- constructor. now apply leb_false_flip.
        -- inversion Hhd; subst. now constructor.
Qed.

(** [sorted] returns the items in key order, and returns them all. *)
Lemma sort_items_sorted {V} (d : pydict V) : Sorted key_le (sort_items d).
Proof.
  unfold sort_items. induction d as [|x r IH]; simpl.
  - constructor.
  - now apply insert_item_sorted.
Qed.

Lemma insert_item_perm {V} (x : string * V) (l : list (string * V)) :
  Permutation (x :: l) (insert_item x l).
Proof.
  induction l as [|y r IH]; simpl; [reflexivity|].
  destruct (String.leb (fst x) (fst y)); [reflexivity|].
  rewrite perm_swap. now constructor.
Qed.

Lemma sort_items_perm {V} (d : pydict V) : Permutation d (sort_items d).
Proof.
  unfold sort_items. induction d as [|x r IH]; simpl; [constructor|].
  rewrite <- insert_item_perm. now constructor.
Qed.

(** Concatenation of strings is associative. *)
Lemma string_app_assoc (a b c : string) : (a ++ b) ++ c = a ++ b ++ c.
Proof. induction a as [|x a IH]; simpl; [reflexivity|now rewrite IH]. Qed.

(** The constant keys and values of the descriptor need no escape. *)
Ltac plain_constants :=
  change (escape_string "argv") with "argv";
  change (escape_string "display_name") with "display_name";
  change (escape_string "env") with "env";
  change (escape_string "interrupt_mode") with "interrupt_mode";
  change (escape_string "language") with "language";
  change (escape_string "GRAALVM_HOME") with "GRAALVM_HOME";
  change (escape_string "IJAVA_TIMEOUT") with "IJAVA_TIMEOUT";
  change (escape_string "message") with "message";
  change (escape_string "GraalVM") with "GraalVM";
  change (escape_string "GraalVM Native") with "GraalVM Native".

(** The text [json.dump] writes for the descriptor, character for
    character. *)
Lemma kernel_json_text (args : Namespace) (home dest : string)
    (timeout : option string) :
  json_dump (kernel_json args
               (match timeout with
                | Some v => [("IJAVA_TIMEOUT", v)]
                | None => []
                end) home dest)
  = expected_descriptor_text
      (if opt_truthy (native args)
       then [ dest ++ "/IGraalVM"; "{connection_file}" ]
       else [ home ++ "/bin/java"; "-jar"; dest ++ "/IGraalVM.jar";
              "{connection_file}" ])
      (if opt_truthy (native args) then "GraalVM Native" else "GraalVM")
      home timeout.
Proof.
  rewrite kernel_json_shape.
  unfold kernel_args, json_dump, expected_descriptor_text, quoted, merge_env.
  destruct timeout as [v|]; destruct (opt_truthy (native args));
    cbn -[escape_string]; plain_constants;
    repeat (progress (repeat rewrite string_app_assoc; cbn -[escape_string]));
    reflexivity.
Qed.

(** C8: two runs of the script, on any two hosts, that parse to the same
    namespace, resolve the same runtime home and get the same destination
    from the registrar, write the same text to the same path.  The text is
    a function of the launch command, the display name, the runtime home
    and the timeout value alone, and is given character for character:
    the members [argv], [display_name], [env], [interrupt_mode], [language]
    in key order, [GRAALVM_HOME] before [IJAVA_TIMEOUT] in the environment,
    four spaces per nesting level, a comma and a line break between
    members, no line break after the closing brace. *)
Theorem descriptor_text_deterministic (h1 h2 : Host)
    (argv1 argv2 : list Occurrence) (ns : Namespace) (home dest : string)
    (path1 path2 : string) (obj1 obj2 : json) :
  parse_args (argparse_counts_default h1) script_parser argv1 = Parsed ns ->
  parse_args (argparse_counts_default h2) script_parser argv2 = Parsed ns ->
  resolve_graalvm_home (fixed_up ns) (os_environ h1) = Some home ->
  resolve_graalvm_home (fixed_up ns) (os_environ h2) = Some home ->
  registered_dest h1 (fixed_up ns) = Some dest ->
  registered_dest h2 (fixed_up ns) = Some dest ->
  In (path1, obj1) (written (snd (run h1 argv1))) ->
  In (path2, obj2) (written (snd (run h2 argv2))) ->
  path1 = path2
  /\ file_text obj1 = file_text obj2
  /\ file_text obj1
     = expected_descriptor_text
         (if opt_truthy (native ns)
          then [ dest ++ "/IGraalVM"; "{connection_file}" ]
          else [ home ++ "/bin/java"; "-jar"; dest ++ "/IGraalVM.jar";
                 "{connection_file}" ])
         (if opt_truthy (native ns) then "GraalVM Native" else "GraalVM")
         home
         (option_map resolve_alias (last_value timeout_value argv1)).
Proof.
  intros Hp1 Hp2 Hh1 Hh2 Hd1 Hd2 H1 H2.
  apply run_written in H1
    as (p & ns1 & home1 & dest1 & ov1 & Hp & Hq1 & Hr1 & _ & He1 & Hi1 & -> & ->).
  apply run_written in H2
    as (p' & ns2 & home2 & dest2 & ov2 & Hp' & Hq2 & Hr2 & _ & He2 & Hi2 & -> & ->).
  rewrite make_parser_script_parser in Hp, Hp'.
  injection Hp as <-. injection Hp' as <-.
  rewrite Hp1 in Hq1. injection Hq1 as <-.
  rewrite Hp2 in Hq2. injection Hq2 as <-.
  rewrite Hh1 in Hr1. injection Hr1 as <-.
  rewrite Hh2 in Hr2. injection Hr2 as <-.
  unfold registered_dest in Hd1, Hd2.
  rewrite Hd1 in Hi1. injection Hi1 as <-.
  rewrite Hd2 in Hi2. injection Hi2 as <-.
  rewrite He1 in He2. injection He2 as <-.
  split; [reflexivity|]. split; [reflexivity|].
  apply (parse_loop_fields _ _ make_parser_script_parser) in Hp1 as (_ & _ & He).
  rewrite fixed_up_env, He in He1. injection He1 as <-.
  unfold env_after, file_text.
  rewrite <- fixed_up_native.
  destruct (last_value timeout_value argv1) as [v|]; cbn [env default_namespace option_map].
  - apply (kernel_json_text (fixed_up ns) home dest (Some (resolve_alias v))).
  - apply (kernel_json_text (fixed_up ns) home dest None).
Qed.

Lemma descriptor_text_deterministic_witness :
  example_descriptor_path = example_descriptor_path
  /\ file_text example_descriptor = file_text example_descriptor
  /\ file_text example_descriptor
     = expected_descriptor_text
         [ "/opt/gvm/bin/java"; "-jar";
           "/home/ada/.local/share/jupyter/kernels/GraalVM/IGraalVM.jar";
           "{connection_file}" ]
         "GraalVM" "/opt/gvm" (Some "-1").
Proof.
  apply (descriptor_text_deterministic example_host second_host
           timeout_example
           [ OptGraalvm "/usr/lib/jvm"; OptTimeout "30 SECONDS"; OptPrefix "";
             OptTimeout "NO_TIMEOUT"; OptGraalvm "/opt/gvm" ]
           (mkNamespace false false "" (Some [("IJAVA_TIMEOUT", "-1")])
                        (Some "/opt/gvm") None)
           "/opt/gvm" "/home/ada/.local/share/jupyter/kernels/GraalVM"
           example_descriptor_path example_descriptor_path
           example_descriptor example_descriptor).
  - reflexivity.
  - reflexivity.
  - reflexivity.
  - reflexivity.
  - reflexivity.
  - reflexivity.
  - vm_compute. left. reflexivity.
  - vm_compute. left. reflexivity.
Defined.

(* ------------------------------------------------------------------ *)
(** ** The [EnvVar] action and the converter, in general *)

Lemma dict_get_none_not_in {V} (k : string) (d : pydict V) :
  dict_get k d = None -> ~ In k (dict_keys d).
Proof.
  induction d as [|[k0 v0] d IH]; simpl; intros H; [tauto|].
  destruct (String.eqb_spec k k0) as [->|Hne]; [discriminate|].
  intros [E|Hin]; [congruence|]. now apply IH.
Qed.

(** Assignment to a key keeps the insertion order: a key that is present
    stays where it is, a new key goes to the end. *)
Lemma dict_keys_set {V} (k : string) (v : V) (d : pydict V) :
  dict_keys (dict_set k v d)
  = if dict_mem k d then dict_keys d else (dict_keys d ++ [k])%list.
Proof.
  unfold dict_mem.
  induction d as [|[k0 v0] d IH]; simpl; [reflexivity|].
  destruct (String.eqb_spec k k0) as [->|Hne]; simpl; [reflexivity|].
  rewrite IH. now destruct (dict_get k d).
Qed.

(** X1: [EnvVar.__init__] raises exactly when one of the option strings,
    its leading dashes stripped, is missing from the name map; and an
    action that was built never raises when called with one of its own
    option strings. *)
Theorem EnvVar_init_guards_call (opts : list string) (d : string)
    (al : pydict (pydict string)) (nm : pydict string) (sep : option string) :
  (EnvVar_init opts d al nm sep = None
   <-> exists name, In name opts /\ dict_get (lstrip_dash name) nm = None)
  /\ (forall self, EnvVar_init opts d al nm sep = Some self ->
        option_strings self = opts /\ name_map self = nm /\ list_sep self = sep
        /\ forall o e v, In o opts -> EnvVar_call self e v o <> None).
Proof.
  unfold EnvVar_init. split.
  - destruct (forallb (fun name => dict_mem (lstrip_dash name) nm) opts) eqn:E.
    + split; [discriminate|]. intros (name & Hin & Hnone).
      rewrite forallb_forall in E. specialize (E name Hin).
      unfold dict_mem in E. rewrite Hnone in E. discriminate.
    + split; [intros _|reflexivity].
      assert (~ forallb (fun name => dict_mem (lstrip_dash name) nm) opts = true)
        as Hnot by (rewrite E; discriminate).
      rewrite forallb_forall in Hnot.
      induction opts as [|o r IH]; simpl in E; [discriminate|].
      apply andb_false_iff in E as [Eo|Er].
      * exists o. split; [now left|].
        unfold dict_mem in Eo. now destruct (dict_get (lstrip_dash o) nm).
      * destruct IH as (name & Hin & Hn); [exact Er| |].
        -- intros Hall. rewrite <- forallb_forall in Hall. congruence.
        -- exists name. split; [now right|exact Hn].
  - intros self H.
    destruct (forallb (fun name => dict_mem (lstrip_dash name) nm) opts) eqn:E;
      [|discriminate].
    injection H as <-. cbn. repeat split.
    intros o e v Hin. rewrite forallb_forall in E. specialize (E o Hin).
    unfold EnvVar_call, dict_mem in *. cbn.
    destruct (dict_get (lstrip_dash o) nm); [discriminate|discriminate].
Qed.

(** X2: two calls of an action for the same option, starting without the
    variable: with a non-empty list separator the second value is appended
    to the first behind the separator; without one the second value
    replaces the first. *)
Theorem EnvVar_call_twice (self : EnvVar) (e0 : option (pydict string))
    (o key v1 v2 : string) :
  dict_get (lstrip_dash o) (name_map self) = Some key ->
  dict_get key (current_env e0) = None ->
  exists e1 e2,
    EnvVar_call self e0 v1 o = Some e1
    /\ EnvVar_call self (Some e1) v2 o = Some e2
    /\ dict_get key e1 = Some v1
    /\ dict_get key e2
       = Some (match list_sep self with
               | Some sep => if str_truthy sep then v1 ++ sep ++ v2 else v2
               | None => v2
               end).
Proof.
  intros Hkey Hfresh. unfold EnvVar_call, current_env in *. rewrite Hkey.
  do 2 eexists. split; [reflexivity|]. split; [reflexivity|].
  destruct (list_sep self) as [sep|]; [destruct (str_truthy sep)|];
    rewrite ?Hfresh, ?dict_get_set_same; split; try reflexivity;
    rewrite ?dict_set_set; apply dict_get_set_same.
Qed.

Lemma EnvVar_call_twice_witness :
  exists e1 e2,
    EnvVar_call path_action None "a.jar" "--classpath" = Some e1
    /\ EnvVar_call path_action (Some e1) "b.jar" "--classpath" = Some e2
    /\ dict_get "IJAVA_CLASSPATH" e1 = Some "a.jar"
    /\ dict_get "IJAVA_CLASSPATH" e2 = Some "a.jar:b.jar".
Proof.
  apply (EnvVar_call_twice path_action None "--classpath" "IJAVA_CLASSPATH"
           "a.jar" "b.jar").
  - reflexivity.
  - reflexivity.
Defined.

(** X3: a call of an action touches one variable only: every other key
    keeps its value, the keys keep their order (a new variable goes to the
    end), and distinct keys stay distinct. *)
Theorem EnvVar_call_frame (self : EnvVar) (e : option (pydict string))
    (v o : string) (e' : pydict string) :
  EnvVar_call self e v o = Some e' ->
  exists key,
    dict_get (lstrip_dash o) (name_map self) = Some key
    /\ (forall k, k <> key -> dict_get k e' = dict_get k (current_env e))
    /\ dict_keys e'
       = (if dict_mem key (current_env e) then dict_keys (current_env e)
          else (dict_keys (current_env e) ++ [key])%list)
    /\ (NoDup (dict_keys (current_env e)) -> NoDup (dict_keys e')).
Proof.
  unfold EnvVar_call, current_env. intros H.
  destruct (dict_get (lstrip_dash o) (name_map self)) as [key|]; [|discriminate].
  injection H as <-. exists key. split; [reflexivity|].
  split; [|split].
  - intros k Hne. now apply dict_get_set_other.
  - apply dict_keys_set.
  - intros Hnd. rewrite dict_keys_set. unfold dict_mem.
    destruct (dict_get key match e with Some d => d | None => [] end) eqn:E;
      [exact Hnd|].
    apply dict_get_none_not_in in E.
    apply NoDup_app; [exact Hnd|repeat constructor; tauto|].
    intros x Hx [<-|[]]. contradiction.
Qed.

Lemma EnvVar_call_frame_witness :
  exists key,
    dict_get (lstrip_dash "--classpath") (name_map path_action) = Some key
    /\ (forall k, k <> key ->
          dict_get k [("IJAVA_TIMEOUT", "-1"); ("IJAVA_CLASSPATH", "a.jar")]
          = dict_get k (current_env (Some [("IJAVA_TIMEOUT", "-1")])))
    /\ dict_keys [("IJAVA_TIMEOUT", "-1"); ("IJAVA_CLASSPATH", "a.jar")]
       = (if dict_mem key (current_env (Some [("IJAVA_TIMEOUT", "-1")]))
          then dict_keys (current_env (Some [("IJAVA_TIMEOUT", "-1")]))
          else (dict_keys (current_env (Some [("IJAVA_TIMEOUT", "-1")])) ++ [key])%list)
    /\ (NoDup (dict_keys (current_env (Some [("IJAVA_TIMEOUT", "-1")]))) ->
        NoDup (dict_keys [("IJAVA_TIMEOUT", "-1"); ("IJAVA_CLASSPATH", "a.jar")])).
Proof.
  apply (EnvVar_call_frame path_action (Some [("IJAVA_TIMEOUT", "-1")])
           "a.jar" "--classpath").
  reflexivity.
Defined.

(** X4: [type_assertion] raises for a name outside [NAME_MAP]; for
    [timeout] and any type function it builds a checker that hands the
    alias, not the given value, to the type function: the checker returns
    the alias when the type function takes it and fails when it does not,
    and checking a returned value again returns it unchanged. *)
Theorem type_assertion_checks_alias (type_fn : type_fn_t) :
  (forall name, dict_get name NAME_MAP = None -> type_assertion name type_fn = None)
  /\ exists checker,
       type_assertion "timeout" type_fn = Some checker
       /\ (forall v, type_fn (resolve_alias v) <> None ->
                     checker v = Some (resolve_alias v))
       /\ (forall v, type_fn (resolve_alias v) = None -> checker v = None)
       /\ (forall v r, checker v = Some r -> checker r = Some r).
Proof.
  split.
  - intros name H. unfold type_assertion. now rewrite H.
  - eexists. split; [reflexivity|].
    assert (Halias : forall v,
              dict_get_default v v (dict_get_default "IJAVA_TIMEOUT" [] ALIASES)
              = resolve_alias v).
    { intros v. unfold resolve_alias, dict_get_default. cbn.
      now destruct (String.eqb v "NO_TIMEOUT"). }
    assert (Hidem : forall v, resolve_alias (resolve_alias v) = resolve_alias v).
    { intros v. unfold resolve_alias.
      destruct (String.eqb v "NO_TIMEOUT") eqn:E; [reflexivity|now rewrite E]. }
    repeat split.
    + intros v Hv. cbv zeta. rewrite Halias.
      destruct (type_fn (resolve_alias v)); [reflexivity|contradiction].
    + intros v Hv. cbv zeta. rewrite Halias. now rewrite Hv.
    + intros v r H. cbv zeta in *. rewrite Halias in *.
      destruct (type_fn (resolve_alias v)) eqn:E; [|discriminate].
      injection H as <-. now rewrite Hidem, E.
Qed.
(* ------------------------------------------------------------------ *)
(** ** Which command lines the parser accepts, and what it returns *)

Section Acceptance.

Variable counts : bool.
Variable p : Parser.
Hypothesis Hp : make_parser = Some p.

Lemma take_action_help seen ns :
  take_action counts p seen ns OptHelp = inr HelpRequested.
Proof. reflexivity. Qed.

(** The script's own action never raises: a step that does not go on is a
    usage error, or the help option. *)
Lemma take_action_error seen ns o e :
  take_action counts p seen ns o = inr e ->
  (e = UsageError /\ is_help o = false) \/ (e = HelpRequested /\ o = OptHelp).
Proof.
  unfold take_action.
  destruct o; cbn;
    rewrite ?(timeout_type_spec p Hp), ?(timeout_action_spec p Hp); cbn;
    repeat match goal with
           | |- context [if ?c then _ else _] => destruct c
           end;
    intros H; try discriminate H; injection H as <-; auto.
Qed.

Lemma take_action_seen seen ns o seen' ns' :
  take_action counts p seen ns o = inl (seen', ns') ->
  seen' = if is_present counts o then action_of o :: seen else seen.
Proof.
  unfold take_action.
  destruct o; cbn;
    rewrite ?(timeout_type_spec p Hp), ?(timeout_action_spec p Hp); cbn;
    repeat match goal with
           | |- context [if ?c then _ else _] => destruct c eqn:?
           end;
    intros H; try discriminate H; now injection H as <- _.
Qed.

Lemma take_action_conflict seen ns o a :
  present_location counts o = true ->
  mem_action a install_location = true ->
  mem_action a seen = true ->
  Action_eqb (action_of o) a = false ->
  take_action counts p seen ns o = inr UsageError.
Proof.
  unfold present_location, is_location, take_action.
  intros Hpres Hloc Hmem Hne.
  apply andb_true_iff in Hpres as [Hl Hpr].
  destruct o; try discriminate Hl; destruct a; try discriminate Hloc;
    try discriminate Hne; cbn; cbn in Hpr; rewrite ?Hpr, Hmem; cbn;
    rewrite ?orb_true_r; reflexivity.
Qed.

Lemma mem_action_cons_same a l : mem_action a (a :: l) = true.
Proof. now destruct a. Qed.

Lemma parse_loop_rejects_after l o l3 a : forall seen ns,
  forallb (fun x => negb (is_help x)) l = true ->
  present_location counts o = true ->
  mem_action a install_location = true ->
  mem_action a seen = true ->
  Action_eqb (action_of o) a = false ->
  parse_loop counts p seen ns (l ++ o :: l3) = Failed UsageError.
Proof.
  induction l as [|x l IH]; intros seen ns Hnh Hpres Hloc Hmem Hne;
    cbn [app parse_loop].
  - now rewrite (take_action_conflict seen ns o a).
  - cbn [forallb] in Hnh. apply andb_true_iff in Hnh as [Hx Hnh].
    destruct (take_action counts p seen ns x) as [[seen' ns']|e] eqn:E.
    + apply IH; auto.
      rewrite (take_action_seen _ _ _ _ _ E).
      destruct (is_present counts x); [|exact Hmem].
      rewrite mem_action_cons, Hmem. apply orb_true_r.
    + destruct (take_action_error _ _ _ _ E) as [[-> _]|[_ ->]];
        [reflexivity|discriminate Hx].
Qed.

Lemma parse_loop_rejects_pair l1 o1 l2 o2 l3 : forall seen ns,
  forallb (fun x => negb (is_help x)) l1 = true ->
  forallb (fun x => negb (is_help x)) l2 = true ->
  present_location counts o1 = true ->
  present_location counts o2 = true ->
  Action_eqb (action_of o1) (action_of o2) = false ->
  parse_loop counts p seen ns (l1 ++ o1 :: l2 ++ o2 :: l3) = Failed UsageError.
Proof.
  induction l1 as [|x l IH]; intros seen ns Hn1 Hn2 H1 H2 Hne;
    cbn [app parse_loop].
  - assert (Hloc1 : is_location o1 = true)
      by (unfold present_location in H1; now apply andb_true_iff in H1 as [? _]).
    destruct (take_action counts p seen ns o1) as [[seen' ns']|e] eqn:E.
    + apply (parse_loop_rejects_after l2 o2 l3 (action_of o1)); auto.
      * rewrite (take_action_seen _ _ _ _ _ E).
        unfold present_location in H1. apply andb_true_iff in H1 as [_ ->].
        apply mem_action_cons_same.
      * destruct (action_of o1), (action_of o2); cbn in *; congruence.
    + destruct (take_action_error _ _ _ _ E) as [[-> _]|[_ ->]];
        [reflexivity|discriminate Hloc1].
  - cbn [forallb] in Hn1. apply andb_true_iff in Hn1 as [Hx Hn1].
    destruct (take_action counts p seen ns x) as [[seen' ns']|e] eqn:E.
    + now apply IH.
    + destruct (take_action_error _ _ _ _ E) as [[-> _]|[_ ->]];
        [reflexivity|discriminate Hx].
Qed.

Lemma Action_eqb_eq a b : Action_eqb a b = true <-> a = b.
Proof. destruct a, b; cbn; split; congruence. Qed.

Lemma take_action_accepts seen ns x :
  is_help x = false ->
  (present_location counts x = true ->
   forall a, mem_action a install_location = true ->
             mem_action a seen = true -> action_of x = a) ->
  exists r, take_action counts p seen ns x = inl r.
Proof.
  unfold present_location, is_location, take_action. intros Hh H.
  destruct x; try discriminate Hh; cbn; cbn in H;
    rewrite ?(timeout_type_spec p Hp), ?(timeout_action_spec p Hp); cbn;
    try (eexists; reflexivity).
  - destruct (mem_action act_sys_prefix seen) eqn:F1;
      [discriminate (H eq_refl act_sys_prefix eq_refl F1)|].
    destruct (mem_action act_prefix seen) eqn:F2;
      [discriminate (H eq_refl act_prefix eq_refl F2)|].
    eexists; reflexivity.
  - destruct (mem_action act_user seen) eqn:F1;
      [discriminate (H eq_refl act_user eq_refl F1)|].
    destruct (mem_action act_prefix seen) eqn:F2;
      [discriminate (H eq_refl act_prefix eq_refl F2)|].
    eexists; reflexivity.
  - destruct (str_truthy value || counts) eqn:Hpres; cbn;
      [|eexists; reflexivity].
    destruct (mem_action act_user seen) eqn:F1;
      [discriminate (H eq_refl act_user eq_refl F1)|].
    destruct (mem_action act_sys_prefix seen) eqn:F2;
      [discriminate (H eq_refl act_sys_prefix eq_refl F2)|].
    eexists; reflexivity.
Qed.

Lemma parse_loop_accepts argv : forall seen ns,
  forallb (fun x => negb (is_help x)) argv = true ->
  compatible counts argv ->
  (forall a o, mem_action a seen = true -> mem_action a install_location = true ->
               In o argv -> present_location counts o = true -> action_of o = a) ->
  exists ns', parse_loop counts p seen ns argv = Parsed ns'.
Proof.
  induction argv as [|x rest IH]; intros seen ns Hnh Hc Hseen; cbn [parse_loop].
  - now exists ns.
  - cbn [forallb] in Hnh. apply andb_true_iff in Hnh as [Hx Hnh].
    apply negb_true_iff in Hx.
    destruct (take_action counts p seen ns x) as [[seen' ns']|e] eqn:E.
    + apply IH; [exact Hnh| |].
      * intros o o' Ho Ho'. apply Hc; now right.
      * intros a o Ha Hl Ho Hpo.
        rewrite (take_action_seen _ _ _ _ _ E) in Ha.
        destruct (is_present counts x) eqn:Hpx.
        -- rewrite mem_action_cons in Ha. apply orb_true_iff in Ha as [Ha|Ha].
           ++ apply Action_eqb_eq in Ha. subst a.
              apply Hc; [now right|now left|exact Hpo|].
              unfold present_location, is_location. now rewrite Hl, Hpx.
           ++ apply (Hseen a o); auto. now right.
        -- apply (Hseen a o); auto. now right.
    + exfalso.
      destruct (take_action_accepts seen ns x Hx) as (r & Hr); [|congruence].
      intros Hpx a Hl Ha. apply (Hseen a x); auto. now left.
Qed.

(** A command line that is accepted holds no help option. *)
Lemma parse_loop_parsed_no_help argv : forall seen ns ns',
  parse_loop counts p seen ns argv = Parsed ns' ->
  forallb (fun x => negb (is_help x)) argv = true.
Proof.
  induction argv as [|x rest IH]; intros seen ns ns' H; cbn [parse_loop] in H.
  - reflexivity.
  - destruct (take_action counts p seen ns x) as [[seen' ns1]|e] eqn:E;
      [|discriminate H].
    cbn [forallb]. rewrite (IH _ _ _ H), andb_true_r.
    destruct x; try reflexivity. discriminate E.
Qed.

(** Parsing an accepted command line and then more is parsing the rest
    from where the first part ended. *)
Lemma parse_loop_app_parsed l1 : forall seen ns ns1,
  parse_loop counts p seen ns l1 = Parsed ns1 ->
  exists seen1, forall rest,
    parse_loop counts p seen ns (l1 ++ rest) = parse_loop counts p seen1 ns1 rest.
Proof.
  induction l1 as [|x l IH]; intros seen ns ns1 H; cbn [parse_loop] in H.
  - injection H as <-. now exists seen.
  - destruct (take_action counts p seen ns x) as [[seen' ns']|e] eqn:E;
      [|discriminate H].
    destruct (IH _ _ _ H) as (seen1 & Hrest).
    exists seen1. intros rest. cbn [app parse_loop]. now rewrite E.
Qed.

(** The help exit is taken at the first help option, provided the command
    line before it is accepted. *)
Lemma parse_loop_help argv : forall seen ns,
  parse_loop counts p seen ns argv = Failed HelpRequested ->
  exists l1 l2 ns1,
    argv = (l1 ++ OptHelp :: l2)%list
    /\ parse_loop counts p seen ns l1 = Parsed ns1.
Proof.
  induction argv as [|x rest IH]; intros seen ns H; cbn [parse_loop] in H.
  - discriminate H.
  - destruct (take_action counts p seen ns x) as [[seen' ns']|e] eqn:E.
    + destruct (IH _ _ H) as (l1 & l2 & ns1 & -> & Hl1).
      exists (x :: l1), l2, ns1. split; [reflexivity|].
      cbn [parse_loop]. now rewrite E.
    + injection H as ->.
      destruct (take_action_error _ _ _ _ E) as [[Hu _]|[_ ->]];
        [discriminate Hu|].
      now exists [], rest, ns.
Qed.

Lemma parse_loop_failure argv : forall seen ns e,
  parse_loop counts p seen ns argv = Failed e ->
  e = UsageError \/ e = HelpRequested.
Proof.
  induction argv as [|x rest IH]; intros seen ns e H; cbn [parse_loop] in H.
  - discriminate H.
  - destruct (take_action counts p seen ns x) as [[seen' ns']|e'] eqn:E.
    + eapply IH; eassumption.
    + injection H as <-.
      destruct (take_action_error _ _ _ _ E) as [[-> _]|[-> _]]; auto.
Qed.

End Acceptance.

(** X5: a command line with two counted occurrences of different
    install-location options, and no help option before the second of
    them, is a usage error wherever the two stand; the script exits with
    status 2 before doing anything. *)
Theorem conflicting_locations_rejected (h : Host)
    (l1 l2 l3 : list Occurrence) (o1 o2 : Occurrence) :
  present_location (argparse_counts_default h) o1 = true ->
  present_location (argparse_counts_default h) o2 = true ->
  Action_eqb (action_of o1) (action_of o2) = false ->
  forallb (fun o => negb (is_help o)) (l1 ++ l2) = true ->
  parse_args (argparse_counts_default h) script_parser
    (l1 ++ o1 :: l2 ++ o2 :: l3) = Failed UsageError
  /\ run h (l1 ++ o1 :: l2 ++ o2 :: l3) = (Exited 2, []).
Proof.
  intros H1 H2 Hne Hnh.
  rewrite forallb_app in Hnh. apply andb_true_iff in Hnh as [Hn1 Hn2].
  assert (Hparse : parse_args (argparse_counts_default h) script_parser
                     (l1 ++ o1 :: l2 ++ o2 :: l3) = Failed UsageError)
    by (apply parse_loop_rejects_pair; auto using make_parser_script_parser).
  split; [exact Hparse|].
  unfold run, main. rewrite make_parser_script_parser, Hparse. reflexivity.
Qed.

Lemma conflicting_locations_rejected_witness :
  parse_args (argparse_counts_default example_host) script_parser
    ([OptGraalvm "/opt/gvm"] ++ OptPrefix "/opt/env" :: [OptTimeout "5"]
       ++ OptSysPrefix :: [OptHelp])
  = Failed UsageError
  /\ run example_host
       ([OptGraalvm "/opt/gvm"] ++ OptPrefix "/opt/env" :: [OptTimeout "5"]
          ++ OptSysPrefix :: [OptHelp])
     = (Exited 2, []).
Proof.
  apply (conflicting_locations_rejected example_host
           [OptGraalvm "/opt/gvm"] [OptTimeout "5"] [OptHelp]
           (OptPrefix "/opt/env") OptSysPrefix).
  - reflexivity.
  - reflexivity.
  - reflexivity.
  - reflexivity.
Defined.

Lemma Action_eqb_sym a b : Action_eqb a b = Action_eqb b a.
Proof. now destruct a, b. Qed.

Lemma parse_args_accepted (counts : bool) (p : Parser) (argv : list Occurrence) :
  make_parser = Some p ->
  ((exists ns, parse_args counts p argv = Parsed ns)
   <-> compatible counts argv
       /\ forallb (fun o => negb (is_help o)) argv = true).
Proof.
  intros Hp. split.
  - intros (ns & Hns).
    pose proof (parse_loop_parsed_no_help counts p argv _ _ _ Hns) as Hnh.
    split; [|exact Hnh].
    intros o o' Hin Hin' Hpo Hpo'.
    destruct (Action_eqb (action_of o) (action_of o')) eqn:E;
      [now apply Action_eqb_eq|].
    exfalso.
    apply in_split in Hin as (l1 & l2 & ->).
    rewrite forallb_app in Hnh. apply andb_true_iff in Hnh as [Hn1 Hn2].
    cbn [forallb] in Hn2. apply andb_true_iff in Hn2 as [_ Hn2].
    apply in_app_or in Hin' as [Hin'|[<-|Hin']].
    + apply in_split in Hin' as (m1 & m2 & ->).
      rewrite forallb_app in Hn1. apply andb_true_iff in Hn1 as [Hm1 Hm2].
      cbn [forallb] in Hm2. apply andb_true_iff in Hm2 as [_ Hm2].
      rewrite <- app_assoc in Hns. cbn [app] in Hns.
      unfold parse_args in Hns.
      rewrite (parse_loop_rejects_pair counts p Hp m1 o' m2 o l2) in Hns;
        auto; [discriminate|].
      now rewrite Action_eqb_sym.
    + destruct (action_of o); discriminate E.
    + apply in_split in Hin' as (m1 & m2 & ->).
      rewrite forallb_app in Hn2. apply andb_true_iff in Hn2 as [Hm1 _].
      unfold parse_args in Hns.
      rewrite (parse_loop_rejects_pair counts p Hp l1 o m1 o' m2) in Hns;
        auto; discriminate.
  - intros (Hc & Hnh).
    apply (parse_loop_accepts counts p Hp); [exact Hnh|exact Hc|].
    intros a o Ha. discriminate Ha.
Qed.

(** X6: what the parser does with a command line.  It accepts it exactly
    when it holds no help option and its counted install-location
    occurrences all name the same option.  It prints the help and exits
    exactly when there is a help option and the command line before the
    first one would be accepted.  Every other command line is a usage
    error: the parser never fails in another way. *)
Theorem parse_args_accepts_iff (counts : bool) (p : Parser)
    (argv : list Occurrence) :
  make_parser = Some p ->
  ((exists ns, parse_args counts p argv = Parsed ns)
   <-> compatible counts argv
       /\ forallb (fun o => negb (is_help o)) argv = true)
  /\ (parse_args counts p argv = Failed HelpRequested
      <-> exists l1 l2,
            argv = (l1 ++ OptHelp :: l2)%list
            /\ forallb (fun o => negb (is_help o)) l1 = true
            /\ compatible counts l1)
  /\ (forall e, parse_args counts p argv = Failed e ->
                e = UsageError \/ e = HelpRequested).
Proof.
  intros Hp. split; [now apply parse_args_accepted|]. split.
  - split.
    + intros H. unfold parse_args in H.
      destruct (parse_loop_help counts p Hp argv _ _ H)
        as (l1 & l2 & ns1 & -> & Hl1).
      exists l1, l2. split; [reflexivity|].
      destruct (parse_args_accepted counts p l1 Hp) as [Hacc _].
      destruct Hacc as (Hc & Hnh); [now exists ns1|]. now split.
    + intros (l1 & l2 & -> & Hnh & Hc).
      destruct (parse_args_accepted counts p l1 Hp) as [_ Hacc].
      destruct Hacc as (ns1 & Hns1); [now split|].
      unfold parse_args in *.
      destruct (parse_loop_app_parsed counts p l1 _ _ _ Hns1) as (seen1 & Happ).
      rewrite Happ. reflexivity.
  - intros e. apply (parse_loop_failure counts p Hp).
Qed.

Lemma parse_args_accepts_iff_witness :
  ((exists ns,
      parse_args false script_parser [OptUser; OptPrefix ""; OptUser] = Parsed ns)
   <-> compatible false [OptUser; OptPrefix ""; OptUser]
       /\ forallb (fun o => negb (is_help o)) [OptUser; OptPrefix ""; OptUser]
          = true)
  /\ (parse_args false script_parser [OptUser; OptPrefix ""; OptUser]
      = Failed HelpRequested
      <-> exists l1 l2,
            [OptUser; OptPrefix ""; OptUser] = (l1 ++ OptHelp :: l2)%list
            /\ forallb (fun o => negb (is_help o)) l1 = true
            /\ compatible false l1)
  /\ (forall e,
        parse_args false script_parser [OptUser; OptPrefix ""; OptUser] = Failed e ->
        e = UsageError \/ e = HelpRequested).
Proof.
  apply (parse_args_accepts_iff false script_parser [OptUser; OptPrefix ""; OptUser]).
  reflexivity.
Defined.

Lemma parse_loop_location_fields (counts : bool) (p : Parser) :
  make_parser = Some p ->
  forall argv seen ns ns',
    parse_loop counts p seen ns argv = Parsed ns' ->
    user ns' = user ns || existsb (fun o => Action_eqb (action_of o) act_user) argv
    /\ sys_prefix ns'
       = sys_prefix ns
         || existsb (fun o => Action_eqb (action_of o) act_sys_prefix) argv
    /\ prefix ns'
       = match last_value prefix_value argv with
         | Some v => v
         | None => prefix ns
         end.
Proof.
  intros Hp.
  induction argv as [|o rest IH]; intros seen ns ns' H; simpl in H.
  - injection H as <-. cbn. now rewrite !orb_false_r.
  - destruct (take_action counts p seen ns o) as [[seen1 ns1]|r] eqn:E;
      [|discriminate].
    destruct (IH _ _ _ H) as (Hu & Hs & Hx).
    rewrite Hu, Hs, Hx. clear IH H Hu Hs Hx.
    unfold take_action in E.
    destruct o; cbn in E;
      rewrite ?(timeout_type_spec p Hp), ?(timeout_action_spec p Hp) in E;
      cbn in E;
      try discriminate E;
      try match type of E with
          | (if ?c then _ else _) = _ => destruct c; [discriminate|]
          end;
      injection E as <- <-; cbn;
      rewrite ?orb_true_r, ?orb_false_r;
      destruct (last_value prefix_value rest); auto.
Qed.

(** X7: the namespace of an accepted command line can be read off the
    command line: [user] and [sys_prefix] are on when their flag occurs,
    [prefix], [graalvm] and [native] hold the value of their last
    occurrence (or their default), and [env] holds the alias-expanded value
    of the last [--timeout] under [IJAVA_TIMEOUT], or is unset. *)
Theorem parse_args_closed_form (counts : bool) (p : Parser)
    (argv : list Occurrence) (ns : Namespace) :
  make_parser = Some p ->
  parse_args counts p argv = Parsed ns ->
  ns = parsed_namespace argv.
Proof.
  intros Hp H. unfold parse_args in H.
  destruct (parse_loop_location_fields counts p Hp _ _ _ _ H) as (Hu & Hs & Hx).
  destruct (parse_loop_fields counts p Hp _ _ _ _ H) as (Hg & Hn & He).
  unfold parsed_namespace. destruct ns as [u s x e g n]. cbn in *.
  subst. f_equal.
  - now destruct (last_value graalvm_value argv).
  - now destruct (last_value native_value argv).
Qed.

Lemma parse_args_closed_form_witness :
  mkNamespace false true "" (Some [("IJAVA_TIMEOUT", "-1")]) (Some "/b") None
  = parsed_namespace
      [ OptGraalvm "/a"; OptTimeout "9"; OptSysPrefix; OptTimeout "NO_TIMEOUT";
        OptGraalvm "/b" ].
Proof.
  apply (parse_args_closed_form false script_parser
           [ OptGraalvm "/a"; OptTimeout "9"; OptSysPrefix; OptTimeout "NO_TIMEOUT";
             OptGraalvm "/b" ]).
  - reflexivity.
  - reflexivity.
Defined.

(* ------------------------------------------------------------------ *)
(** ** What a run does, step by step *)

Lemma runtime_home_parsed (h : Host) (argv : list Occurrence) (ns : Namespace) :
  parse_args (argparse_counts_default h) script_parser argv = Parsed ns ->
  resolve_graalvm_home (fixed_up ns) (os_environ h) = runtime_home h argv.
Proof.
  intros H.
  apply (parse_loop_fields _ _ make_parser_script_parser) in H as (Hg & _ & _).
  unfold runtime_home, resolve_graalvm_home. rewrite fixed_up_graalvm, Hg. cbn.
  now destruct (last_value graalvm_value argv).
Qed.

Lemma native_parsed (h : Host) (argv : list Occurrence) (ns : Namespace) :
  parse_args (argparse_counts_default h) script_parser argv = Parsed ns ->
  native (fixed_up ns) = last_value native_value argv.
Proof.
  intros H.
  apply (parse_loop_fields _ _ make_parser_script_parser) in H as (_ & Hn & _).
  rewrite fixed_up_native, Hn. cbn.
  now destruct (last_value native_value argv).
Qed.

Ltac explore Hr :=
  repeat match type of Hr with
         | context [match ?x with _ => _ end] =>
             lazymatch x with
             | context [match _ with _ => _ end] => fail
             | _ => destruct x eqn:?;
                    cbn beta iota zeta delta [fst snd trace environ app negb] in Hr
             end
         end.

(** Every way a run can go, as an equation for [run h argv]. *)
Ltac run_cases h argv r Hr ns Hparse :=
  remember (run h argv) as r eqn:Hr;
  unfold_script; rewrite make_parser_script_parser in Hr;
  destruct (parse_args (argparse_counts_default h) script_parser argv)
    as [ns|[| |]] eqn:Hparse;
  cbn beta iota zeta delta [fst snd trace environ app] in Hr;
  [ fold (fixed_up ns) in Hr;
    rewrite (runtime_home_parsed h argv ns Hparse),
            (native_parsed h argv ns Hparse) in Hr;
    explore Hr
  | | | ];
  subst r; cbn [fst snd] in *;
  try match goal with
      | E : negb (opt_truthy None) = false |- _ => discriminate E
      end.

(** X8: whatever command the script runs, it runs it in the host's
    environment with [JAVA_HOME] set to the runtime home it resolved, and
    nothing else changed; the command is [mvn package] or the native-image
    command for the languages of the last [--native]. *)
Theorem subprocess_environment (h : Host) (argv : list Occurrence)
    (cmd : list string) (e : pydict string) :
  In (Run cmd e) (snd (run h argv)) ->
  exists home,
    runtime_home h argv = Some home
    /\ str_truthy home = true
    /\ e = build_environ h home
    /\ dict_get "JAVA_HOME" e = Some home
    /\ (forall k, k <> "JAVA_HOME" -> dict_get k e = dict_get k (os_environ h))
    /\ (cmd = ["mvn"; "package"]
        \/ exists langs,
             last_value native_value argv = Some langs
             /\ str_truthy langs = true
             /\ cmd = native_run_args home (split_comma langs)).
Proof.
  intros H.
  run_cases h argv r Hr ns Hparse.
  all: cbn [In] in H; repeat destruct H as [H|H];
       try discriminate H; try contradiction.
  all: injection H as <- <-.
  all: match goal with
       | E : negb (opt_truthy (Some ?s)) = false |- _ =>
           apply negb_false_iff in E; cbn in E; exists s
       end.
  all: split; [reflexivity|]; split; [assumption|]; split; [reflexivity|].
  all: split; [apply dict_get_set_same|].
  all: split; [intros k Hk; now apply dict_get_set_other|].
  all: first [ left; reflexivity
             | right; eexists; split; [reflexivity|]; split;
               [assumption|reflexivity] ].
Qed.

Lemma subprocess_environment_witness :
  exists home,
    runtime_home example_host native_example = Some home
    /\ str_truthy home = true
    /\ build_environ example_host "/opt/gvm" = build_environ example_host home
    /\ dict_get "JAVA_HOME" (build_environ example_host "/opt/gvm") = Some home
    /\ (forall k, k <> "JAVA_HOME" ->
          dict_get k (build_environ example_host "/opt/gvm")
          = dict_get k (os_environ example_host))
    /\ (native_run_args "/opt/gvm" ["js"; "python"] = ["mvn"; "package"]
        \/ exists langs,
             last_value native_value native_example = Some langs
             /\ str_truthy langs = true
             /\ native_run_args "/opt/gvm" ["js"; "python"]
                = native_run_args home (split_comma langs)).
Proof.
  apply (subprocess_environment example_host native_example
           (native_run_args "/opt/gvm" ["js"; "python"])
           (build_environ example_host "/opt/gvm")).
  vm_compute. do 6 right. left. reflexivity.
Defined.
Lemma runtime_home_missing (h : Host) (argv : list Occurrence) :
  opt_truthy (runtime_home h argv) = false
  <-> opt_truthy (last_value graalvm_value argv) = false
      /\ opt_truthy (dict_get "GRAALVM_HOME" (os_environ h)) = false.
Proof.
  unfold runtime_home, resolve_graalvm_home, dict_mem. cbn [graalvm].
  destruct (opt_truthy (last_value graalvm_value argv)) eqn:Eflag;
    destruct (dict_get "GRAALVM_HOME" (os_environ h)) as [e|] eqn:Eenv;
    cbn [negb andb opt_truthy]; rewrite ?Eflag; intuition congruence.
Qed.

(** X9: the script calls [exit] in four situations only: with 2 on a
    usage error, before anything is done; with 0 when the help is asked
    for, after printing the help and nothing else; with 0 on an accepted
    command line when neither [--graalvm] nor [GRAALVM_HOME] gives a
    non-empty runtime home, after printing the guidance and nothing else;
    and with the non-zero return code of the command it has just run. *)
Theorem exit_codes (h : Host) (argv : list Occurrence) (code : Z) :
  fst (run h argv) = Exited code ->
  (code = 2 /\ snd (run h argv) = []
   /\ parse_args (argparse_counts_default h) script_parser argv = Failed UsageError)
  \/ (code = 0 /\ snd (run h argv) = [PrintHelp]
      /\ parse_args (argparse_counts_default h) script_parser argv
         = Failed HelpRequested)
  \/ (code = 0 /\ snd (run h argv) = [Print guidance]
      /\ (exists ns,
            parse_args (argparse_counts_default h) script_parser argv = Parsed ns)
      /\ opt_truthy (last_value graalvm_value argv) = false
      /\ opt_truthy (dict_get "GRAALVM_HOME" (os_environ h)) = false)
  \/ (code <> 0
      /\ exists pre cmd e,
           snd (run h argv) = (pre ++ [Run cmd e])%list
           /\ returncode h cmd e = Some code).
Proof.
  intros H.
  pose proof (runtime_home_missing h argv) as Hmissing.
  run_cases h argv r Hr ns Hparse.
  all: try discriminate H.
  all: injection H as <-.
  all: try (left; repeat split; reflexivity).
  all: try (right; left; repeat split; reflexivity).
  all: try (right; right; left;
            split; [reflexivity|]; split; [reflexivity|];
            split; [eexists; reflexivity|];
            apply Hmissing;
            match goal with
            | E : negb _ = true |- _ => apply negb_true_iff in E; exact E
            end).
  all: right; right; right; split;
       [ match goal with
         | E : negb (?z =? 0) = true |- ?z <> 0 =>
             apply negb_true_iff, Z.eqb_neq in E; exact E
         end
       | match goal with
         | |- context [?l = (_ ++ [Run _ _])%list] => exists (removelast l)
         end;
         do 2 eexists; split; [cbn [removelast app]; reflexivity|assumption] ].
Qed.

Lemma exit_codes_witness :
  (7 = 2 /\ snd (run failing_native_host native_example) = []
   /\ parse_args (argparse_counts_default failing_native_host) script_parser
        native_example = Failed UsageError)
  \/ (7 = 0 /\ snd (run failing_native_host native_example) = [PrintHelp]
      /\ parse_args (argparse_counts_default failing_native_host) script_parser
           native_example = Failed HelpRequested)
  \/ (7 = 0 /\ snd (run failing_native_host native_example) = [Print guidance]
      /\ (exists ns,
            parse_args (argparse_counts_default failing_native_host) script_parser
              native_example = Parsed ns)
      /\ opt_truthy (last_value graalvm_value native_example) = false
      /\ opt_truthy (dict_get "GRAALVM_HOME" (os_environ failing_native_host))
         = false)
  \/ (7 <> 0
      /\ exists pre cmd e,
           snd (run failing_native_host native_example) = (pre ++ [Run cmd e])%list
           /\ returncode failing_native_host cmd e = Some 7).
Proof.
  apply (exit_codes failing_native_host native_example 7).
  reflexivity.
Defined.

(** X10: a run that ends normally has done exactly this, in this order:
    set [JAVA_HOME], run [mvn package] (which returned 0), made the kernel
    directory unless it existed, moved the jar into it, built the native
    image when a non-empty language list was given, registered the kernel
    directory, written the descriptor into the registered destination, and
    printed the confirmation. *)
Theorem successful_run (h : Host) (argv : list Occurrence) :
  fst (run h argv) = Returned tt ->
  exists ns home dest overrides,
    parse_args (argparse_counts_default h) script_parser argv = Parsed ns
    /\ runtime_home h argv = Some home
    /\ env (fixed_up ns) = Some overrides
    /\ registered_dest h (fixed_up ns) = Some dest
    /\ returncode h ["mvn"; "package"] (build_environ h home) = Some 0
    /\ snd (run h argv) = successful_trace h (fixed_up ns) overrides home dest.
Proof.
  intros H.
  run_cases h argv r Hr ns Hparse.
  all: try discriminate H.
  all: exists ns.
  all: match goal with
       | E : negb (opt_truthy (Some ?s)) = false |- _ => exists s
       end.
  all: match goal with
       | E : install_kernel_spec _ _ _ _ _ = Some ?d |- _ => exists d
       end.
  all: match goal with
       | E : env (fixed_up _) = Some ?o |- _ => exists o
       end.
  all: repeat match goal with
              | E : negb (?z =? 0) = false |- _ =>
                  apply negb_false_iff, Z.eqb_eq in E; subst z
              | E : negb (path_exists _ _) = true |- _ => apply negb_true_iff in E
              | E : negb (path_exists _ _) = false |- _ => apply negb_false_iff in E
              end.
  all: unfold registered_dest, successful_trace, native_steps, kernel_name_of,
         build_environ.
  all: rewrite (native_parsed h argv ns Hparse).
  all: clear H.
  all: repeat match goal with
              | E : last_value native_value _ = _ |- _ => rewrite E
              | E : str_truthy _ = _ |- _ => rewrite E
              | E : path_exists _ _ = _ |- _ => rewrite E
              | E : sys_prefix _ = _ |- _ => rewrite E
              | _ => progress cbn [opt_truthy]
              end.
  all: cbn [opt_truthy app]; repeat split; try assumption; reflexivity.
Qed.

Lemma successful_run_witness :
  exists ns home dest overrides,
    parse_args (argparse_counts_default example_host) script_parser native_example
      = Parsed ns
    /\ runtime_home example_host native_example = Some home
    /\ env (fixed_up ns) = Some overrides
    /\ registered_dest example_host (fixed_up ns) = Some dest
    /\ returncode example_host ["mvn"; "package"] (build_environ example_host home)
       = Some 0
    /\ snd (run example_host native_example)
       = successful_trace example_host (fixed_up ns) overrides home dest.
Proof.
  apply (successful_run example_host native_example).
  reflexivity.
Defined.
Lemma fixed_up_modes (seen : list Action) (ns : Namespace) :
  location_inv seen ns ->
  (user (fixed_up ns) = true /\ sys_prefix (fixed_up ns) = false
   /\ prefix (fixed_up ns) = "")
  \/ (user (fixed_up ns) = false /\ sys_prefix (fixed_up ns) = true
      /\ sys_prefix ns = true)
  \/ (user (fixed_up ns) = false /\ sys_prefix (fixed_up ns) = false
      /\ prefix (fixed_up ns) = prefix ns /\ str_truthy (prefix ns) = true).
Proof.
  unfold location_inv, fixed_up, with_user_default, with_env_default.
  destruct ns as [u s x e g n]. cbn [user sys_prefix prefix env].
  intros (Hu & Hs & Hx & H1 & H2 & H3).
  destruct e; cbn [user sys_prefix prefix env];
    destruct u, s, x as [|c x]; cbn in *; auto 10;
    exfalso;
    repeat match goal with
           | H : true = true -> _ |- _ => specialize (H eq_refl)
           end;
    repeat match goal with
           | H : mem_action _ _ = true |- _ => rewrite H in *
           end;
    discriminate.
Qed.

(** X11: what the registrar is asked: always the staging directory
    [<module dir>/graalvm]; the kernel name [GraalVMNative] exactly when
    the last [--native] is non-empty, [GraalVM] otherwise; and either a
    user installation with the empty prefix, or [sys.prefix] when
    [--sys-prefix] was given, or the non-empty value of the last
    [--prefix]: never a user installation together with a prefix. *)
Theorem registrar_arguments (h : Host) (argv : list Occurrence)
    (dir name : string) (u : bool) (pfx : string) :
  In (InstallKernelSpec dir name u pfx) (snd (run h argv)) ->
  dir = path_join (module_dir h) "graalvm"
  /\ name = (if opt_truthy (last_value native_value argv)
             then "GraalVMNative" else "GraalVM")
  /\ ((u = true /\ pfx = "")
      \/ (u = false /\ pfx = sys_dot_prefix h
          /\ existsb (fun o => Action_eqb (action_of o) act_sys_prefix) argv = true)
      \/ (u = false /\ last_value prefix_value argv = Some pfx
          /\ str_truthy pfx = true)).
Proof.
  intros H.
  assert (Hmodes : forall ns,
            parse_args (argparse_counts_default h) script_parser argv = Parsed ns ->
            let args := fixed_up ns in
            let p := if sys_prefix args then sys_dot_prefix h else prefix args in
            (user args = true /\ p = "")
            \/ (user args = false /\ p = sys_dot_prefix h
                /\ existsb (fun o => Action_eqb (action_of o) act_sys_prefix) argv
                   = true)
            \/ (user args = false /\ last_value prefix_value argv = Some p
                /\ str_truthy p = true)).
  { intros ns Hparse. cbv zeta.
    destruct (parse_loop_location_inv _ _ make_parser_script_parser argv []
                default_namespace ns location_inv_initial Hparse) as (seen & Hinv).
    destruct (parse_loop_location_fields _ _ make_parser_script_parser
                _ _ _ _ Hparse) as (_ & Hs & Hx).
    cbn in Hs, Hx.
    destruct (fixed_up_modes seen ns Hinv)
      as [(Hu & Hsf & Hp)|[(Hu & Hsf & Hsn)|(Hu & Hsf & Hp & Ht)]];
      rewrite Hsf.
    - left. now split.
    - right. left. repeat split; auto. now rewrite <- Hs.
    - right. right. rewrite Hp. repeat split; auto.
      rewrite Hx in *. destruct (last_value prefix_value argv); [reflexivity|].
      discriminate Ht. }
  run_cases h argv r Hr ns Hparse.
  all: cbn [In] in H; repeat destruct H as [H|H];
       try discriminate H; try contradiction.
  all: injection H as <- <- <- <-.
  all: specialize (Hmodes ns eq_refl); cbv zeta in Hmodes.
  all: repeat match goal with
              | E : sys_prefix _ = _ |- _ => rewrite E in Hmodes
              end.
  all: split; [reflexivity|]; split; [|exact Hmodes].
  all: cbn [opt_truthy];
       repeat match goal with
              | E : str_truthy _ = _ |- _ => rewrite E
              end; reflexivity.
Qed.

Lemma registrar_arguments_witness :
  "/work/IGraalVM/graalvm" = path_join (module_dir example_host) "graalvm"
  /\ "GraalVMNative" = (if opt_truthy (last_value native_value native_example)
                        then "GraalVMNative" else "GraalVM")
  /\ ((true = true /\ "" = "")
      \/ (true = false /\ "" = sys_dot_prefix example_host
          /\ existsb (fun o => Action_eqb (action_of o) act_sys_prefix)
               native_example = true)
      \/ (true = false /\ last_value prefix_value native_example = Some ""
          /\ str_truthy "" = true)).
Proof.
  apply (registrar_arguments example_host native_example
           "/work/IGraalVM/graalvm" "GraalVMNative" true "").
  vm_compute. do 9 right. left. reflexivity.
Defined.

(** X12: when the native-image command returns a non-zero code, the
    script stops inside the [graalvm] directory: the jar has been moved
    into the staging directory and the working directory changed, but the
    jar is not removed, the working directory is not changed back, nothing
    is registered and no descriptor is written. *)
Theorem native_failure_leaves (h : Host) (argv : list Occurrence)
    (cmd : list string) (e : pydict string) (rc : Z) :
  In (Run cmd e) (snd (run h argv)) ->
  cmd <> ["mvn"; "package"] ->
  returncode h cmd e = Some rc ->
  rc <> 0 ->
  In (Move (path_join (module_dir h) "target/IGraalVM-1.0-SNAPSHOT.jar")
           (path_join (path_join (module_dir h) "graalvm") "IGraalVM.jar"))
     (snd (run h argv))
  /\ In (Chdir "graalvm") (snd (run h argv))
  /\ ~ In (Chdir "..") (snd (run h argv))
  /\ ~ In (Remove "IGraalVM.jar") (snd (run h argv))
  /\ (forall d n u x, ~ In (InstallKernelSpec d n u x) (snd (run h argv)))
  /\ written (snd (run h argv)) = []
  /\ fst (run h argv) = Exited rc.
Proof.
  intros H Hcmd Hrc Hnz.
  run_cases h argv r Hr ns Hparse.
  all: cbn [In] in H; repeat destruct H as [H|H];
       try discriminate H; try contradiction.
  all: injection H as <- <-; try congruence.
  all: repeat match goal with
              | H1 : ?x = Some ?a, H2 : ?x = Some ?b |- _ =>
                  assert (a = b) by congruence; subst a; clear H2
              end.
  all: try match goal with
           | E : negb (?r =? 0) = false, N : ?r <> 0 |- _ =>
               apply negb_false_iff in E; apply Z.eqb_eq in E; contradiction
           end.
  all: cbn [In written flat_map app].
  all: repeat split; auto 10.
  all: try (intros Hin; repeat destruct Hin as [Hin|Hin];
            try discriminate Hin; contradiction).
  all: intros d n u x Hin; repeat destruct Hin as [Hin|Hin];
       try discriminate Hin; contradiction.
Qed.

Lemma native_failure_leaves_witness :
  In (Move (path_join (module_dir failing_native_host)
              "target/IGraalVM-1.0-SNAPSHOT.jar")
           (path_join (path_join (module_dir failing_native_host) "graalvm")
              "IGraalVM.jar"))
     (snd (run failing_native_host native_example))
  /\ In (Chdir "graalvm") (snd (run failing_native_host native_example))
  /\ ~ In (Chdir "..") (snd (run failing_native_host native_example))
  /\ ~ In (Remove "IGraalVM.jar") (snd (run failing_native_host native_example))
  /\ (forall d n u x,
        ~ In (InstallKernelSpec d n u x)
             (snd (run failing_native_host native_example)))
  /\ written (snd (run failing_native_host native_example)) = []
  /\ fst (run failing_native_host native_example) = Exited 7.
Proof.
  apply (native_failure_leaves failing_native_host native_example
           (native_run_args "/opt/gvm" ["js"; "python"])
           (build_environ failing_native_host "/opt/gvm") 7).
  - vm_compute. do 6 right. left. reflexivity.
  - discriminate.
  - reflexivity.
  - discriminate.
Defined.
Lemma prefix_app (a b : string) : String.prefix a (a ++ b) = true.
Proof.
  induction a as [|c a IH]; simpl.
  - now destruct b.
  - destruct (ascii_dec c c); [exact IH|contradiction].
Qed.

Lemma path_join_relative (a b : string) :
  startswith "/" b = false ->
  String.prefix a (path_join a b) = true /\ endswith b (path_join a b) = true.
Proof.
  intros Hb. unfold path_join. rewrite Hb.
  destruct (negb (str_truthy a) || endswith "/" a); split;
    try apply prefix_app; try apply endswith_app.
  apply endswith_app_r, endswith_app_r, endswith_refl.
Qed.

(** X13: a run writes at most one descriptor, writes it only when it goes
    on to end normally, and writes it inside the destination the registrar
    returned (the path starts with the destination and ends with
    [kernel.json]), after the registration. *)
Theorem descriptor_written_once (h : Host) (argv : list Occurrence) :
  (List.length (written (snd (run h argv))) <= 1)%nat
  /\ forall path obj,
       In (path, obj) (written (snd (run h argv))) ->
       fst (run h argv) = Returned tt
       /\ exists dir name u pfx dest before after,
            snd (run h argv)
            = (before ++ InstallKernelSpec dir name u pfx
                      :: JsonDump path obj :: after)%list
            /\ install_kernel_spec h dir name u pfx = Some dest
            /\ path = path_join dest "kernel.json"
            /\ String.prefix dest path = true
            /\ endswith "kernel.json" path = true.
Proof.
  run_cases h argv r Hr ns Hparse.
  all: cbn [written flat_map app List.length In].
  all: split; [lia|].
  all: intros path obj H; repeat destruct H as [H|H]; try contradiction.
  all: injection H as <- <-.
  all: split; [reflexivity|].
  all: match goal with
       | E : install_kernel_spec _ ?d ?n ?u ?x = Some ?dest
         |- context [(_ ++ _ :: JsonDump ?p ?o :: _)%list = ?l] => idtac
       | E : install_kernel_spec _ ?d ?n ?u ?x = Some ?dest |- _ =>
           exists d, n, u, x, dest
       end.
  all: match goal with
       | |- exists before after, ?l = _ /\ _ =>
           exists (removelast (removelast (removelast l))), [List.last l (Print "")]
       end.
  all: split; [reflexivity|]; split; [assumption|]; split; [reflexivity|].
  all: now apply path_join_relative.
Qed.

Lemma run_starts_build (h : Host) (argv : list Occurrence) (ns : Namespace)
    (home : string) :
  parse_args (argparse_counts_default h) script_parser argv = Parsed ns ->
  runtime_home h argv = Some home ->
  str_truthy home = true ->
  exists rest,
    snd (run h argv)
    = Setenv "JAVA_HOME" home
        :: Run ["mvn"; "package"] (build_environ h home) :: rest.
Proof.
  intros Hns Hhome Htruthy.
  run_cases h argv r Hr ns' Hparse; try discriminate Hns.
  all: try discriminate Hhome.
  all: try match goal with
           | E : negb (opt_truthy (runtime_home _ _)) = true |- _ =>
               rewrite Hhome in E; cbn in E; rewrite Htruthy in E;
               discriminate E
           end.
  all: injection Hhome as ->.
  all: eexists; reflexivity.
Qed.

(** X14: on an accepted command line the script stops with the guidance
    and status 0 exactly when the last [--graalvm] is absent or empty and
    [GRAALVM_HOME] is absent from the environment or empty.  A non-empty
    [--graalvm] is the runtime home whatever the environment says; without
    one, a non-empty [GRAALVM_HOME] is.  The first two steps are then
    setting [JAVA_HOME] to that value and running [mvn package] in the
    environment of the host with [JAVA_HOME] set to it. *)
Theorem runtime_home_gate (h : Host) (argv : list Occurrence) (ns : Namespace) :
  parse_args (argparse_counts_default h) script_parser argv = Parsed ns ->
  (run h argv = (Exited 0, [Print guidance])
   <-> opt_truthy (last_value graalvm_value argv) = false
       /\ opt_truthy (dict_get "GRAALVM_HOME" (os_environ h)) = false)
  /\ (forall flag,
        last_value graalvm_value argv = Some flag -> str_truthy flag = true ->
        exists rest,
          snd (run h argv)
          = Setenv "JAVA_HOME" flag
              :: Run ["mvn"; "package"] (dict_set "JAVA_HOME" flag (os_environ h))
              :: rest)
  /\ (forall variable,
        opt_truthy (last_value graalvm_value argv) = false ->
        dict_get "GRAALVM_HOME" (os_environ h) = Some variable ->
        str_truthy variable = true ->
        exists rest,
          snd (run h argv)
          = Setenv "JAVA_HOME" variable
              :: Run ["mvn"; "package"]
                     (dict_set "JAVA_HOME" variable (os_environ h))
              :: rest).
Proof.
  intros Hns. split; [split|split].
  - intros Hrun. apply runtime_home_missing.
    destruct (runtime_home h argv) as [home|] eqn:Hhome; [|reflexivity].
    cbn. destruct (str_truthy home) eqn:Htruthy; [|reflexivity].
    destruct (run_starts_build h argv ns home Hns Hhome Htruthy) as (rest & Hrest).
    rewrite Hrun in Hrest. discriminate Hrest.
  - intros Hmissing. apply runtime_home_missing in Hmissing.
    unfold run, main. rewrite make_parser_script_parser, Hns.
    fold (fixed_up ns). unfold bind, get_environ. cbn [environ].
    rewrite (runtime_home_parsed h argv ns Hns), Hmissing. reflexivity.
  - intros flag Hflag Htruthy.
    apply (run_starts_build h argv ns flag Hns); [|exact Htruthy].
    unfold runtime_home, resolve_graalvm_home. cbn [graalvm].
    rewrite Hflag. cbn [opt_truthy]. rewrite Htruthy. reflexivity.
  - intros variable Hflag Hvariable Htruthy.
    apply (run_starts_build h argv ns variable Hns); [|exact Htruthy].
    unfold runtime_home, resolve_graalvm_home, dict_mem. cbn [graalvm].
    rewrite Hflag, Hvariable. reflexivity.
Qed.

Lemma runtime_home_gate_witness :
  (run second_host [OptGraalvm ""; OptUser] = (Exited 0, [Print guidance])
   <-> opt_truthy (last_value graalvm_value [OptGraalvm ""; OptUser]) = false
       /\ opt_truthy (dict_get "GRAALVM_HOME" (os_environ second_host)) = false)
  /\ (forall flag,
        last_value graalvm_value [OptGraalvm ""; OptUser] = Some flag ->
        str_truthy flag = true ->
        exists rest,
          snd (run second_host [OptGraalvm ""; OptUser])
          = Setenv "JAVA_HOME" flag
              :: Run ["mvn"; "package"]
                     (dict_set "JAVA_HOME" flag (os_environ second_host))
              :: rest)
  /\ (forall variable,
        opt_truthy (last_value graalvm_value [OptGraalvm ""; OptUser]) = false ->
        dict_get "GRAALVM_HOME" (os_environ second_host) = Some variable ->
        str_truthy variable = true ->
        exists rest,
          snd (run second_host [OptGraalvm ""; OptUser])
          = Setenv "JAVA_HOME" variable
              :: Run ["mvn"; "package"]
                     (dict_set "JAVA_HOME" variable (os_environ second_host))
              :: rest).
Proof.
  apply (runtime_home_gate second_host [OptGraalvm ""; OptUser]
           (mkNamespace true false "" None (Some "") None)).
  reflexivity.
Defined.

(* ------------------------------------------------------------------ *)
(** ** The text [json.dump] writes *)

Lemma all_chars_app (f : ascii -> bool) (a b : string) :
  all_chars f (a ++ b) = all_chars f a && all_chars f b.
Proof.
  induction a as [|c a IH]; simpl; [reflexivity|].
  now rewrite IH, andb_assoc.
Qed.

Lemma all_chars_weaken (f g : ascii -> bool) (s : string) :
  (forall c, f c = true -> g c = true) ->
  all_chars f s = true -> all_chars g s = true.
Proof.
  intros Hfg. induction s as [|c s IH]; simpl; [reflexivity|].
  intros H. apply andb_true_iff in H as [Hc Hs].
  now rewrite (Hfg c Hc), IH.
Qed.

Lemma escape_char_printable (c : ascii) :
  all_chars printable (escape_char c) = true.
Proof. destruct c as [[] [] [] [] [] [] [] []]; reflexivity. Qed.

Lemma escape_string_printable (s : string) :
  all_chars printable (escape_string s) = true.
Proof.
  induction s as [|c s IH]; simpl; [reflexivity|].
  now rewrite all_chars_app, escape_char_printable, IH.
Qed.

Lemma encode_string_text (s : string) :
  all_chars text_char (encode_string s) = true.
Proof.
  apply (all_chars_weaken printable).
  - intros c Hc. unfold text_char. now rewrite Hc.
  - unfold encode_string. rewrite !all_chars_app, escape_string_printable.
    reflexivity.
Qed.

Lemma spaces_text (n : nat) : all_chars text_char (spaces n) = true.
Proof. induction n as [|n IH]; simpl; [reflexivity|exact IH]. Qed.

Lemma join_text (sep : string) (parts : list string) :
  all_chars text_char sep = true ->
  Forall (fun s => all_chars text_char s = true) parts ->
  all_chars text_char (join sep parts) = true.
Proof.
  intros Hsep Hparts. unfold join.
  induction Hparts as [|x xs Hx Hxs IH]; simpl; [reflexivity|].
  destruct xs as [|y ys]; [exact Hx|].
  now rewrite !all_chars_app, Hx, Hsep, IH.
Qed.

Lemma block_text (level : nat) (opening closing : string) (members : list string) :
  all_chars text_char opening = true ->
  all_chars text_char closing = true ->
  Forall (fun s => all_chars text_char s = true) members ->
  all_chars text_char (block level opening closing members) = true.
Proof.
  intros Ho Hc Hm. unfold block.
  rewrite !all_chars_app, Ho, Hc, !spaces_text, join_text; auto.
  now rewrite !all_chars_app, spaces_text.
Qed.

Lemma member_text (kv : string * string) :
  all_chars text_char (snd kv) = true ->
  all_chars text_char (member kv) = true.
Proof.
  intros H. unfold member.
  now rewrite !all_chars_app, encode_string_text, H.
Qed.

(** The text of a value has printable ASCII characters and line feeds
    only. *)
Lemma iterencode_text : forall (j : json) (level : nat),
  all_chars text_char (iterencode level j) = true.
Proof.
  fix IH 1. intros [s|items|items] level.
  - apply encode_string_text.
  - destruct items as [|x xs]; [reflexivity|].
    change (iterencode level (JArr (x :: xs)))
      with (block level "[" "]" (map (iterencode (S level)) (x :: xs))).
    apply block_text; try reflexivity.
    generalize (x :: xs) as l. clear x xs.
    induction l as [|y ys IHl]; cbn [map]; constructor; [apply IH|exact IHl].
  - destruct items as [|x xs]; [reflexivity|].
    change (iterencode level (JObj (x :: xs)))
      with (block level "{" "}"
              (map member
                 (sort_items
                    (map (fun kv => (fst kv, iterencode (S level) (snd kv)))
                         (x :: xs))))).
    apply block_text; try reflexivity.
    apply Forall_map.
    eapply Permutation_Forall; [apply sort_items_perm|].
    apply Forall_map.
    generalize (x :: xs) as l. clear x xs.
    induction l as [|[k v] ys IHl]; cbn [map]; constructor; [|exact IHl].
    apply member_text. cbn [fst snd]. apply IH.
Qed.

(** Reading back the escape of one character gives the character. *)
Lemma decode_escape_char (c : ascii) (rest : string) :
  json_string_decode (escape_char c ++ rest)
  = option_map (String c) (json_string_decode rest).
Proof. destruct c as [[] [] [] [] [] [] [] []]; reflexivity. Qed.

Lemma decode_escape_string (s : string) :
  json_string_decode (escape_string s) = Some s.
Proof.
  induction s as [|c s IH]; [reflexivity|].
  cbn [escape_string]. now rewrite decode_escape_char, IH.
Qed.

(** A character that is not plain is written as a backslash and one
    more character, or as a backslash and five more. *)
Lemma escape_char_backslash (c : ascii) :
  plain c = false ->
  exists e, escape_char c = backslash ++ e
            /\ (String.length e = 1%nat \/ String.length e = 5%nat).
Proof.
  destruct c as [[] [] [] [] [] [] [] []]; intros H; try discriminate H;
    (eexists; split; [reflexivity|]; cbn; auto).
Qed.

Lemma escape_char_plain (c : ascii) :
  plain c = true -> escape_char c = String c EmptyString.
Proof.
  destruct c as [[] [] [] [] [] [] [] []]; intros H;
    try discriminate H; reflexivity.
Qed.

(** A last character can be cancelled. *)
Lemma append_char_inj (a b : string) (c : ascii) :
  a ++ String c EmptyString = b ++ String c EmptyString -> a = b.
Proof.
  revert b. induction a as [|x a IH]; intros [|y b] H; simpl in H.
  - reflexivity.
  - exfalso. injection H as _ H. destruct b; discriminate H.
  - exfalso. injection H as _ H. destruct a; discriminate H.
  - injection H as -> H. f_equal. now apply IH.
Qed.

(** X15: whatever strings an object holds (code points below 256), the
    text [json.dump] writes for it consists of printable ASCII characters
    and line feeds only, and nothing of a string is lost on the way: a
    plain character (printable, not the double quote, not the backslash)
    is written as itself, every other character as an escape that starts
    with a backslash and is two or six characters long, and a reader of
    JSON gets the string back from what is written between the quotes, so
    two different strings are never written alike. *)
Theorem json_dump_is_ascii_text :
  (forall (j : json) (level : nat),
     all_chars text_char (iterencode level j) = true)
  /\ (forall s : string, json_string_decode (escape_string s) = Some s)
  /\ (forall s t : string, encode_string s = encode_string t -> s = t)
  /\ (forall c : ascii, plain c = true -> escape_char c = String c EmptyString)
  /\ (forall c : ascii,
        plain c = false ->
        exists e, escape_char c = backslash ++ e
                  /\ (String.length e = 1%nat \/ String.length e = 5%nat)).
Proof.
  split; [exact iterencode_text|].
  split; [exact decode_escape_string|].
  split; [|split; [exact escape_char_plain|exact escape_char_backslash]].
  intros s t H. unfold encode_string in H.
  assert (Hd : json_string_decode (escape_string s)
               = json_string_decode (escape_string t)).
  { f_equal. injection H as H. now apply append_char_inj in H. }
  rewrite !decode_escape_string in Hd. now injection Hd.
Qed.

Lemma json_dump_is_ascii_text_witness :
  all_chars text_char (iterencode 0 example_descriptor) = true
  /\ json_string_decode (escape_string ("C:\gvm" ++ dquote ++ newline))
     = Some ("C:\gvm" ++ dquote ++ newline)
  /\ exists e, escape_char (ascii_of_nat 10) = backslash ++ e
               /\ (String.length e = 1%nat \/ String.length e = 5%nat).
Proof.
  destruct json_dump_is_ascii_text as (Htext & Hdecode & _ & _ & Hescape).
  split; [apply Htext|]. split; [apply Hdecode|].
  apply Hescape. reflexivity.
Defined.

(** X16: a string of plain characters (printable ASCII without the double
    quote and the backslash) is written as it is between two double
    quotes; so are the placeholder [{connection_file}] and every path made
    of such characters. *)
Theorem plain_strings_verbatim (s : string) :
  all_chars plain s = true ->
  encode_string s = dquote ++ s ++ dquote
  /\ encode_string "{connection_file}" = dquote ++ "{connection_file}" ++ dquote.
Proof.
  intros H. split; [|reflexivity].
  unfold encode_string. f_equal. f_equal.
  induction s as [|c s IH]; simpl in *; [reflexivity|].
  apply andb_true_iff in H as [Hc Hs].
  now rewrite (escape_char_plain c Hc), IH.
Qed.

Lemma plain_strings_verbatim_witness :
  encode_string "/home/ada/.local/share/jupyter/kernels/GraalVM/IGraalVM.jar"
  = dquote ++ "/home/ada/.local/share/jupyter/kernels/GraalVM/IGraalVM.jar" ++ dquote
  /\ encode_string "{connection_file}" = dquote ++ "{connection_file}" ++ dquote.
Proof.
  apply (plain_strings_verbatim
           "/home/ada/.local/share/jupyter/kernels/GraalVM/IGraalVM.jar").
  reflexivity.
Defined.

(** X17: the overrides reach the [env] block only: whatever their keys,
    [argv], [display_name], [language] and [interrupt_mode] are those of
    the literal, and the descriptor has these five members and no other. *)
Theorem overrides_stay_in_env (args : Namespace) (overrides : pydict string)
    (home dest : string) :
  let obj := kernel_json args overrides home dest in
  let literal := kernel_json_literal args home dest in
  getitem "argv" obj = getitem "argv" literal
  /\ getitem "display_name" obj = getitem "display_name" literal
  /\ getitem "language" obj = getitem "language" literal
  /\ getitem "interrupt_mode" obj = getitem "interrupt_mode" literal
  /\ exists e, obj = JObj [ ("argv", JArr (map JStr (kernel_args args home dest)));
                            ("display_name",
                               JStr (if opt_truthy (native args)
                                     then "GraalVM Native" else "GraalVM"));
                            ("language", JStr "GraalVM");
                            ("interrupt_mode", JStr "message");
                            ("env", JObj e) ]
               /\ forall k, dict_get k overrides = None ->
                            dict_get k e = dict_get k [("GRAALVM_HOME", JStr home)].
Proof.
  cbv zeta. rewrite kernel_json_shape. repeat split.
  eexists. split; [reflexivity|].
  intros k. unfold merge_env.
  generalize [("GRAALVM_HOME", JStr home)] as base.
  induction overrides as [|[k0 v0] r IH]; intros base Hk; simpl in *.
  - reflexivity.
  - destruct (String.eqb_spec k k0) as [->|Hne]; [discriminate|].
    rewrite IH by assumption. now apply dict_get_set_other.
Qed.

Lemma split_comma_nonempty (s : string) : split_comma s <> [].
Proof.
  destruct s as [|c r]; simpl; [discriminate|].
  destruct (Ascii.eqb c ","); [discriminate|].
  destruct (split_comma r); discriminate.
Qed.

Lemma split_comma_join (s : string) : join "," (split_comma s) = s.
Proof.
  unfold join. induction s as [|c r IH]; [reflexivity|].
  cbn [split_comma].
  destruct (Ascii.eqb_spec c ","%char) as [->|Hne].
  - pose proof (split_comma_nonempty r) as Hr.
    destruct (split_comma r) as [|p ps] eqn:E; [contradiction|].
    cbn [String.concat] in *. now rewrite IH.
  - destruct (split_comma r) as [|p ps] eqn:E.
    + now destruct (split_comma_nonempty r).
    + destruct ps as [|q qs]; cbn [String.concat] in *; now rewrite <- IH.
Qed.

Lemma split_comma_length (s : string) :
  List.length (split_comma s) = S (count_commas s).
Proof.
  induction s as [|c r IH]; [reflexivity|].
  cbn [split_comma count_commas].
  destruct (Ascii.eqb c ","%char); [cbn [List.length]; rewrite IH; lia|].
  destruct (split_comma r) as [|p ps] eqn:E; cbn [List.length] in *; lia.
Qed.

Lemma split_comma_pieces (s : string) :
  Forall (fun piece => count_commas piece = O) (split_comma s).
Proof.
  induction s as [|c r IH]; [repeat constructor|].
  cbn [split_comma].
  destruct (Ascii.eqb c ","%char) eqn:Ec; [constructor; [reflexivity|exact IH]|].
  destruct (split_comma r) as [|p ps] eqn:E.
  - constructor; [cbn [count_commas]; now rewrite Ec|constructor].
  - inversion IH as [|? ? Hp Hps]; subst.
    constructor; [cbn [count_commas]; now rewrite Ec, Hp|exact Hps].
Qed.

(** X18: [str.split(",")] as the script uses it: joining the pieces with
    commas gives the string back, there is one piece more than there are
    commas (so an empty string gives one empty piece, and two commas in a
    row give an empty piece), no piece holds a comma, and the native-image
    command has one [--language:] flag per piece, in order, between the
    four fixed words and [-jar IGraalVM.jar]. *)
Theorem native_languages_round_trip (home langs : string) :
  let pieces := split_comma langs in
  join "," pieces = langs
  /\ List.length pieces = S (count_commas langs)
  /\ Forall (fun piece => count_commas piece = O) pieces
  /\ native_run_args home pieces
     = ([ path_join home "bin/native-image"; "-H:+ReportExceptionStackTraces";
          "--no-fallback"; "--report-unsupported-elements-at-runtime" ]
        ++ map (fun piece => ("--language:" ++ piece)%string) pieces
        ++ [ "-jar"; "IGraalVM.jar" ])%list
  /\ List.length (native_run_args home pieces) = (7 + count_commas langs)%nat.
Proof.
  cbv zeta.
  split; [apply split_comma_join|].
  split; [apply split_comma_length|].
  split; [apply split_comma_pieces|].
  split; [reflexivity|].
  unfold native_run_args. cbn [List.length app].
  rewrite length_app, length_map, split_comma_length. cbn. lia.
Qed.
Lemma string_leb_trans : forall a b c : string,
  String.leb a b = true -> String.leb b c = true -> String.leb a c = true.
Proof.
  unfold String.leb.
  induction a as [|x a IH]; intros [|y b] [|z c]; simpl; try congruence.
  unfold Ascii.compare.
  destruct (N.compare_spec (N_of_ascii x) (N_of_ascii y)) as [E1|L1|G1];
    destruct (N.compare_spec (N_of_ascii y) (N_of_ascii z)) as [E2|L2|G2];
    destruct (N.compare_spec (N_of_ascii x) (N_of_ascii z)) as [E3|L3|G3];
    intros H1 H2; try discriminate; try reflexivity; try (exfalso; lia).
  eapply IH; eassumption.
Qed.

Lemma string_leb_flip (a b : string) :
  a <> b -> String.leb a b = true -> String.leb b a = false.
Proof.
  intros Hne H. destruct (String.leb b a) eqn:E; [|reflexivity].
  exfalso. apply Hne. now apply String.leb_antisym.
Qed.

(** Inserting two items with different keys gives the same list in either
    order. *)
Lemma insert_item_comm {V} (x y : string * V) (l : list (string * V)) :
  fst x <> fst y ->
  insert_item x (insert_item y l) = insert_item y (insert_item x l).
Proof.
  intros Hne.
  assert (Hne' : fst y <> fst x) by congruence.
  induction l as [|z r IH]; cbn [insert_item].
  - destruct (String.leb (fst x) (fst y)) eqn:Exy.
    + now rewrite (string_leb_flip _ _ Hne Exy).
    + now rewrite (leb_false_flip _ _ Exy).
  - destruct (String.leb (fst y) (fst z)) eqn:Eyz;
      destruct (String.leb (fst x) (fst z)) eqn:Exz; cbn [insert_item];
      rewrite ?Eyz, ?Exz.
    + destruct (String.leb (fst x) (fst y)) eqn:Exy.
      * now rewrite (string_leb_flip _ _ Hne Exy).
      * now rewrite (leb_false_flip _ _ Exy).
    + destruct (String.leb (fst x) (fst y)) eqn:Exy.
      * rewrite (string_leb_trans _ _ _ Exy Eyz) in Exz. discriminate.
      * reflexivity.
    + destruct (String.leb (fst y) (fst x)) eqn:Eyx.
      * rewrite (string_leb_trans _ _ _ Eyx Exz) in Eyz. discriminate.
      * reflexivity.
    + now rewrite IH.
Qed.

Lemma sort_items_permutation {V} (l l' : list (string * V)) :
  Permutation l l' -> NoDup (map fst l) -> sort_items l = sort_items l'.
Proof.
  unfold sort_items.
  induction 1 as [|x l l' Hp IH|x y l|l l' l'' Hp1 IH1 Hp2 IH2]; intros Hnd.
  - reflexivity.
  - cbn [fold_right]. inversion Hnd; subst. now rewrite IH.
  - cbn [fold_right]. apply insert_item_comm.
    inversion Hnd as [|? ? Hnotin _]; subst. intros E. apply Hnotin. now left.
  - rewrite IH1 by assumption. apply IH2.
    eapply Permutation_NoDup; [|exact Hnd]. now apply Permutation_map.
Qed.

(** X19: with [sort_keys=True] the text of an object does not depend on
    the order in which its keys were inserted: two dictionaries with the
    same members in different orders are written as the same text. *)
Theorem json_dump_insertion_order (items items' : pydict json) (level : nat) :
  Permutation items items' ->
  NoDup (dict_keys items) ->
  iterencode level (JObj items) = iterencode level (JObj items').
Proof.
  intros Hp Hnd.
  destruct items as [|x xs].
  - apply Permutation_nil in Hp. now subst.
  - destruct items' as [|y ys];
      [apply Permutation_sym, Permutation_nil in Hp; discriminate|].
    cbn [iterencode]. f_equal. f_equal.
    apply sort_items_permutation.
    + now apply Permutation_map.
    + rewrite map_map. exact Hnd.
Qed.

Lemma json_dump_insertion_order_witness :
  iterencode 0 (JObj [ ("language", JStr "GraalVM"); ("env", JObj []);
                       ("argv", JArr []) ])
  = iterencode 0 (JObj [ ("argv", JArr []); ("language", JStr "GraalVM");
                         ("env", JObj []) ]).
Proof.
  apply (json_dump_insertion_order
           [ ("language", JStr "GraalVM"); ("env", JObj []); ("argv", JArr []) ]
           [ ("argv", JArr []); ("language", JStr "GraalVM"); ("env", JObj []) ]
           0).
  - apply Permutation_sym.
    apply (Permutation_cons_app [("language", JStr "GraalVM"); ("env", JObj [])] []).
    rewrite app_nil_r. apply Permutation_refl.
  - repeat constructor; cbn; intuition discriminate.
Defined.

(** X20: the script never does anything out of order: whatever happens,
    what a run has done is an initial part of what the run would do if
    every step succeeded, and only a run that ends normally has done it
    all.  (A failing step cuts the sequence short, nothing is retried or
    undone.) *)
Theorem run_is_prefix_of_success (h : Host) (argv : list Occurrence)
    (ns : Namespace) (home : string) :
  parse_args (argparse_counts_default h) script_parser argv = Parsed ns ->
  runtime_home h argv = Some home ->
  str_truthy home = true ->
  exists overrides dest rest,
    env (fixed_up ns) = Some overrides
    /\ successful_trace h (fixed_up ns) overrides home dest
       = (snd (run h argv) ++ rest)%list
    /\ (fst (run h argv) = Returned tt <-> rest = []).
Proof.
  intros Hns Hhome Htruthy.
  exists (match env ns with Some e => e | None => [] end).
  run_cases h argv r Hr ns' Hparse; try discriminate Hns.
  all: try discriminate Hhome.
  all: try match goal with
           | E : negb (opt_truthy (runtime_home _ _)) = true |- _ =>
               rewrite Hhome in E; cbn in E; rewrite Htruthy in E;
               discriminate E
           end.
  all: injection Hhome as ->; injection Hns as ->.
  all: try match goal with
           | E : env (fixed_up _) = None |- _ =>
               rewrite fixed_up_env in E; discriminate E
           end.
  all: try match goal with
           | E : env (fixed_up _) = Some _ |- _ =>
               rewrite fixed_up_env in E; injection E as <-
           end.
  all: first [ match goal with
               | E : install_kernel_spec _ _ _ _ _ = Some ?d |- _ => exists d
               end
             | exists "" ].
  all: eexists; split; [apply fixed_up_env|].
  all: unfold successful_trace, native_steps, kernel_name_of, build_environ.
  all: rewrite (native_parsed h argv ns Hparse).
  all: repeat match goal with
              | E : negb (path_exists _ _) = true |- _ => apply negb_true_iff in E
              | E : negb (path_exists _ _) = false |- _ => apply negb_false_iff in E
              end.
  all: repeat match goal with
              | E : last_value native_value _ = _ |- _ => rewrite E
              | E : str_truthy _ = _ |- _ => rewrite E
              | E : path_exists _ _ = _ |- _ => rewrite E
              | E : sys_prefix _ = _ |- _ => rewrite E
              | _ => progress cbn [opt_truthy]
              end.
  all: cbn [app]; split; [reflexivity|].
  all: split; intros H;
       first [ discriminate H
             | reflexivity
             | apply (f_equal (@List.length Event)) in H;
               rewrite ?length_app in H; cbn [List.length] in H; lia ].
Qed.

Lemma run_is_prefix_of_success_witness :
  exists overrides dest rest,
    env (fixed_up (mkNamespace false false "" None (Some "/opt/gvm")
                               (Some "js,python")))
    = Some overrides
    /\ successful_trace failing_native_host
         (fixed_up (mkNamespace false false "" None (Some "/opt/gvm")
                                (Some "js,python")))
         overrides "/opt/gvm" dest
       = (snd (run failing_native_host native_example) ++ rest)%list
    /\ (fst (run failing_native_host native_example) = Returned tt <-> rest = []).
Proof.
  apply (run_is_prefix_of_success failing_native_host native_example).
  - reflexivity.
  - reflexivity.
  - reflexivity.
Defined.
